(** * process_EELS: a shallow embedding of [process_EELS.py]

    The three classes of the script ([Line], [Lines], [Mapping]) are embedded
    as records with their methods as functions.  Python floats are IEEE
    binary64 numbers, so they are Rocq's primitive floats; one-dimensional
    numpy arrays are lists of floats.  [Line] objects are mutable and are
    held by reference, so a collection works on a heap of [Line] objects
    addressed by location.  A Python exception is the result [None]; the
    state reached when it was raised is kept.

    The cubic spline, the principal-component fit, the mean and the peak
    detector come from scipy, scikit-learn and numpy; they are the fields of
    the class [Numerics] and every definition is generic in them. *)

From Stdlib Require Import ZArith List Floats Uint63 Lia Bool.
From Equations Require Import Equations.
From stdpp Require Import gmap strings list option.
Import ListNotations.

Set Warnings "-inexact-float".
Local Open Scope Z_scope.

(** ** IEEE doubles *)

Definition float_of_Z (z : Z) : float :=
  if z <? 0 then PrimFloat.opp (PrimFloat.of_uint63 (Uint63.of_Z (- z)))
  else PrimFloat.of_uint63 (Uint63.of_Z z).

Definition float_of_nat (n : nat) : float := float_of_Z (Z.of_nat n).

(** [int(np.floor(v))]: the greatest integer below [v]; [int] raises on an
    infinity and on a NaN. *)
Definition floor_int (v : float) : option Z :=
  match Prim2SF v with
  | S754_zero _ => Some 0
  | S754_finite s m e =>
      let z := if s then Z.neg m else Z.pos m in
      Some (if 0 <=? e then z * 2 ^ e else z / 2 ^ (- e))
  | S754_infinity _ | S754_nan => None
  end.

(** ** Python builtins *)

(** [min(l)], [max(l)]: the first least (greatest) item under [<] ([>]);
    [ValueError] on an empty sequence. *)
Definition pymin (l : list float) : option float :=
  match l with
  | [] => None
  | v :: l' => Some (fold_left (fun m x => if (x <? m)%float then x else m) l' v)
  end.

Definition pymax (l : list float) : option float :=
  match l with
  | [] => None
  | v :: l' => Some (fold_left (fun m x => if (m <? x)%float then x else m) l' v)
  end.

(** [l[i]] for a Python integer [i]: a negative index counts from the end. *)
Definition py_index {A} (l : list A) (i : Z) : option A :=
  let n := Z.of_nat (length l) in
  if (0 <=? i) && (i <? n) then l !! Z.to_nat i
  else if (- n <=? i) && (i <? 0) then l !! Z.to_nat (n + i)
  else None.

(** [l[i:j]]: both bounds are clipped to the length, negative ones count
    from the end. *)
Definition py_clip (n i : Z) : Z :=
  if i <? 0 then Z.max 0 (n + i) else Z.min n i.

Definition py_slice {A} (l : list A) (i j : Z) : list A :=
  let n := Z.of_nat (length l) in
  let a := py_clip n i in
  let b := py_clip n j in
  firstn (Z.to_nat (b - a)) (skipn (Z.to_nat a) l).

(** [range(n)] as indices. *)
Definition py_range (n : Z) : list nat := seq 0 (Z.to_nat n).

(** ** numpy on one-dimensional arrays *)

(** [a op b] on two arrays: equal lengths, or one operand of length one that
    is broadcast; [ValueError] otherwise. *)
Definition np_binop (op : float -> float -> float) (a b : list float)
  : option (list float) :=
  if (length a =? length b)%nat then Some (zip_with op a b)
  else match a, b with
       | [u], _ => Some (List.map (op u) b)
       | _, [v] => Some (List.map (fun u => op u v) a)
       | _, _ => None
       end.

(** [np.where(d > 0)]: the indices of the positive items. *)
Fixpoint np_where_pos_from (i : nat) (d : list float) : list nat :=
  match d with
  | [] => []
  | v :: d' =>
      if (0 <? v)%float then i :: np_where_pos_from (S i) d'
      else np_where_pos_from (S i) d'
  end.

Definition np_where_pos (d : list float) : list nat := np_where_pos_from 0 d.

(** [a[indx]] for an index array: [IndexError] on an index out of range. *)
Definition np_take (a : list float) (indx : list nat) : option (list float) :=
  mapM (fun i => a !! i) indx.

(** [np.argmax]: the first greatest item, a NaN counting as greatest. *)
Fixpoint np_argmax_from (mp : float) (best i : nat) (l : list float) : nat :=
  match l with
  | [] => best
  | v :: l' =>
      if (v <=? mp)%float then np_argmax_from mp best (S i) l'
      else if PrimFloat.is_nan v then i
      else np_argmax_from v i (S i) l'
  end.

Definition np_argmax (l : list float) : option nat :=
  match l with
  | [] => None
  | v :: l' => Some (if PrimFloat.is_nan v then 0%nat else np_argmax_from v 0 1 l')
  end.

(** [np.linspace(start, stop, num)] with the end point included. *)
Definition np_linspace (start stop : float) (num : Z) : option (list float) :=
  if num <? 0 then None
  else
    let div := num - 1 in
    let delta := (stop - start)%float in
    let y := List.map float_of_nat (py_range num) in
    let y :=
      if 0 <? div then
        let step := (delta / float_of_Z div)%float in
        if (step =? 0)%float
        then List.map (fun v => (v / float_of_Z div * delta)%float) y
        else List.map (fun v => (v * step)%float) y
      else List.map (fun v => (v * delta)%float) y in
    let y := List.map (fun v => (v + start)%float) y in
    Some (if 1 <? num then removelast y ++ [stop] else y).

(** ** The numeric libraries *)

Class Numerics := {
  (** [UnivariateSpline(x, y, s=0, k=3)]: the interpolant, or an error. *)
  UnivariateSpline : list float -> list float -> option (float -> float);
  (** [PCA(n_components, random_state=0)]: [fit_transform] and
      [components_] of a data matrix given by rows. *)
  PCA_fit : Z -> list (list float) -> option (list (list float) * list (list float));
  (** [np.mean] of an array. *)
  np_mean : list float -> float;
  (** [scipy.signal.find_peaks(y, height, distance, prominence)]: the peak
      indices and the entry [peak_heights] of the properties. *)
  find_peaks : list float -> float -> float -> option float
               -> option (list nat * list float)
}.

(** ** Effects: a state and exception monad *)

Definition M (S A : Type) : Type := S -> S * option A.

Definition ret {S A} (a : A) : M S A := fun s => (s, Some a).

Definition raise {S A} : M S A := fun s => (s, None).

Definition bind {S A B} (c : M S A) (k : A -> M S B) : M S B :=
  fun s =>
    match c s with
    | (s', Some a) => k a s'
    | (s', None) => (s', None)
    end.

Definition get {S} : M S S := fun s => (s, Some s).

Definition put {S} (s : S) : M S unit := fun _ => (s, Some tt).

(** A computation that may raise but does not write. *)
Definition try_pure {S A} (o : option A) : M S A := fun s => (s, o).

Notation "'let!' x ':=' c 'in' k" := (bind c (fun x => k))
  (at level 10, x name, c at level 100, k at level 200).

Notation "'let!' ( x , y ) ':=' c 'in' k" :=
  (bind c (fun p => let (x, y) := p in k))
  (at level 10, x name, y name, c at level 100, k at level 200).

(** [for x in l: body x], with an accumulator. *)
Fixpoint for_each {S A B} (body : B -> A -> M S B) (acc : B) (l : list A) : M S B :=
  match l with
  | [] => ret acc
  | x :: l' => let! acc' := body acc x in for_each body acc' l'
  end.

(** ** class Line *)

(** [data] is the pair of [data[0]] (x values) and [data[1]] (y values). *)
Record Line := mkLine {
  data : list float * list float;
  name : string;
  height : float
}.

Definition set_data (d : list float * list float) (l : Line) : Line :=
  mkLine d (name l) (height l).

Definition set_name (s : string) (l : Line) : Line :=
  mkLine (data l) s (height l).

Definition set_height (h : float) (l : Line) : Line :=
  mkLine (data l) (name l) h.

(** A value of a configuration dict. *)
Inductive pyval :=
| VFloat (v : float)
| VBool (b : bool).

Definition as_float (v : pyval) : float :=
  match v with
  | VFloat f => f
  | VBool b => if b then 1%float else 0%float
  end.

Module Line.

(** [__init__(data, name)]. *)
Definition init (d : list float * list float) (nm : string) : Line :=
  mkLine d nm 0%float.

(** The test of both comprehensions of [slice_data]. *)
Definition in_range (lo hi x : float) : bool :=
  ((lo <=? x)%float && (x <=? hi)%float)%bool.

(** [[self.data[1][i] for i, x in enumerate(self.data[0]) if keep x]]. *)
Fixpoint select_y (keep : float -> bool) (xs ys : list float)
  : option (list float) :=
  match xs with
  | [] => Some []
  | x :: xs' =>
      if keep x then
        match ys with
        | y :: ys' => cons y <$> select_y keep xs' ys'
        | [] => None
        end
      else select_y keep xs' (tail ys)
  end.

(** [slice_data(xrange)].  The handler of the [try] only prints; the
    [return] after it then fails on the unbound [d1] or [d2], so every
    error inside the [try] still raises.  The bounds are only evaluated
    when there is a sample to test. *)
Definition slice_data (self : Line) (xrange : list float)
  : option (list float * list float) :=
  match fst (data self) with
  | [] => Some ([], [])
  | _ =>
      lo ← pymin xrange;
      hi ← pymax xrange;
      d2 ← select_y (in_range lo hi) (fst (data self)) (snd (data self));
      Some (List.filter (in_range lo hi) (fst (data self)), d2)
  end.

(** [spline(data)]. *)
Definition spline `{Numerics} (d : list float * list float)
  : option (float -> float) :=
  UnivariateSpline (fst d) (snd d).

(** [get_HWHM()]. *)
Definition get_HWHM (self : Line) : option float :=
  mx ← pymax (snd (data self));
  let half_max := (mx / 2)%float in
  let d := List.map (fun v => (v - half_max)%float) (snd (data self)) in
  let indx := np_where_pos d in
  sel ← np_take (fst (data self)) indx;
  hi ← list.last sel;
  lo ← list.head sel;
  Some (PrimFloat.abs (hi - lo)%float).

(** A float is not accepted as the sample count of [np.linspace]. *)
Definition operator_index (v : float) : option Z := None.

(** [get_linspace(xrange, num, step)]; the defaults are [num=2000] and
    [step=0].  With neither a step nor a count the method returns Python's
    [None], which no caller can use as an array. *)
Definition get_linspace (xrange : list float) (num : Z) (step : float)
  : option (list float) :=
  if (0 <? step)%float then
    hi ← pymax xrange;
    lo ← pymin xrange;
    num_points ← operator_index ((hi - lo) / step + 1)%float;
    np_linspace lo hi num_points
  else if 0 <? num then
    lo ← pymin xrange;
    hi ← pymax xrange;
    np_linspace lo hi num
  else None.

Definition default_linspace (xrange : list float) : option (list float) :=
  get_linspace xrange 2000 0%float.

(** [zlp_xrange] in [find_zlp_max], from [test_shift] and [width]. *)
Definition zlp_xrange (test_shift width : float) : list float :=
  let num_sigma := 3%float in
  [ (test_shift - width / 2 * num_sigma)%float;
    (test_shift + width / 2 * num_sigma)%float ].

(** The first pass of [find_zlp_max]: [test_shift], the position of the
    greatest value of the spline over the whole x range. *)
Definition coarse_shift `{Numerics} (self : Line) : option float :=
  y_spl ← spline (data self);
  lo ← pymin (fst (data self));
  hi ← pymax (fst (data self));
  let test_xrange := [lo; hi] in
  x_zlp ← default_linspace test_xrange;
  i ← np_argmax (List.map y_spl x_zlp);
  x_zlp !! i.

(** The window of the second pass: [zlp_xrange]. *)
Definition refine_window `{Numerics} (self : Line) : option (list float) :=
  test_shift ← coarse_shift self;
  width ← get_HWHM self;
  Some (zlp_xrange test_shift width).

(** [find_zlp_max()]: returns [(shift, height)] and stores the height. *)
Definition find_zlp_max `{Numerics} : M Line (float * float) :=
  let! self := get in
  let! y_spl := try_pure (spline (data self)) in
  let! window := try_pure (refine_window self) in
  let! x_zlp := try_pure (default_linspace window) in
  let! i := try_pure (np_argmax (List.map y_spl x_zlp)) in
  let! shift := try_pure (x_zlp !! i) in
  let! height := try_pure (pymax (List.map y_spl x_zlp)) in
  let! _ := put (set_height height self) in
  ret (shift, height).

(** [align()]. *)
Definition align `{Numerics} : M Line (list float * list float) :=
  let! (shift, _) := find_zlp_max in
  let! self := get in
  let! y_spl := try_pure (spline (data self)) in
  let x := fst (data self) in
  let self := set_data (x, List.map (fun v => y_spl (v + shift)%float) x) self in
  let! _ := put self in
  let! lo := try_pure (pymin (fst (data self))) in
  let! hi := try_pure (pymax (fst (data self))) in
  let! d := try_pure (slice_data self [lo; (hi - shift)%float]) in
  let! _ := put (set_data d self) in
  ret d.

(** The block size of [denoise_LLR]: [nx], made odd. *)
Definition block_size (self : Line) (dE : float) : option Z :=
  x1 ← fst (data self) !! 1%nat;
  x0 ← fst (data self) !! 0%nat;
  let myscale := PrimFloat.abs (x1 - x0)%float in
  nx ← floor_int (dE / myscale)%float;
  Some (if nx mod 2 =? 0 then nx + 1 else nx).

(** The rows of [myblock]: [self.data[1][i: i + nx]] for each [i]. *)
Definition blocks (y : list float) (nx num_block : Z) : list (list float) :=
  List.map (fun i => py_slice y (Z.of_nat i) (Z.of_nat i + nx))
           (py_range num_block).

(** [denoise_LLR(dE, ncomp)]; the defaults are [dE=0.02] and [ncomp=1].
    [np.zeros] refuses a negative dimension, and a row of [myblock] only
    takes a slice of its own length. *)
Definition denoise_LLR `{Numerics} (self : Line) (dE : float) (ncomp : Z)
  : option (list float * list float) :=
  nx ← block_size self dE;
  let y := snd (data self) in
  let num_block := Z.of_nat (length y) - nx + 1 in
  if (num_block <? 0) || (nx <? 0) then None
  else
    let myblock := blocks y nx num_block in
    if negb (forallb (fun row => (length row =? Z.to_nat nx)%nat) myblock)
    then None
    else
      let data_mat := List.map (List.map PrimFloat.abs) myblock in
      '(W, H) ← PCA_fit ncomp data_mat;
      w0 ← mapM (fun row => row !! 0%nat) W;
      h0 ← H !! 0%nat;
      let mytp := List.map (fun w => List.map (fun h => (w * h)%float) h0) w0 in
      let y_mean := np_mean (py_slice y 0 num_block) in
      mydata ← mapM (fun i => row ← mytp !! i;
                              v ← py_index row (nx / 2);
                              Some (v + y_mean)%float)
                    (py_range num_block);
      Some (py_slice (fst (data self)) (nx / 2) (num_block + nx / 2), mydata).

(** The defaults of the configuration of [find_peak]. *)
Definition default_config (min_y : float) : gmap string pyval :=
  {[ "height" := VFloat min_y;
     "distance" := VFloat (1 / 100)%float;
     "prominence" := VFloat (1 / 10000)%float;
     "display_peaks" := VBool false ]}.

(** [find_peak(xrange, config_find_peak)]: returns the peak positions and
    heights.  Drawing the peaks has no effect on the state. *)
Definition find_peak `{Numerics} (xrange : list float)
    (config_find_peak : gmap string pyval)
  : M Line (list float * list float) :=
  let! self := get in
  let! d := try_pure (slice_data self xrange) in
  let self := set_data d self in
  let! _ := put self in
  let! (x, sm_y) := try_pure (denoise_LLR self 0.02%float 1) in
  let! y_spl := try_pure (spline (x, sm_y)) in
  let! x_line := try_pure (default_linspace xrange) in
  let y_line := List.map y_spl x_line in
  let! min_y := try_pure (pymin y_line) in
  let! (peaks, heights) :=
    try_pure (find_peaks y_line min_y
                (float_of_nat (length x_line) / 100)%float None) in
  let! min_y := try_pure (pymin y_line) in
  let config := config_find_peak ∪ default_config min_y in
  let! (peaks, heights) :=
    match peaks with
    | [] => ret (peaks, heights)
    | _ =>
        let! h := try_pure (config !! "height") in
        let! dist := try_pure (config !! "distance") in
        let! top := try_pure (pymax heights) in
        let! prom := try_pure (config !! "prominence") in
        try_pure (find_peaks y_line (as_float h)
                    (float_of_nat (length x_line) * as_float dist)%float
                    (Some (top * as_float prom)%float))
    end in
  let! _ := try_pure (config !! "display_peaks") in
  let! pos := try_pure (np_take x_line peaks) in
  ret (pos, heights).

(** [yshift_data(yshift)]. *)
Definition yshift_data (yshift : float) : M Line unit :=
  let! self := get in
  put (set_data (fst (data self),
                 List.map (fun v => (v + yshift)%float) (snd (data self))) self).

End Line.

(** ** The heap of Line objects *)

Definition loc := nat.

Abbreviation heap := (gmap loc Line).

(** A method call [e.m(...)] on the object at [r], inside a method of an
    object of state [T] that lives beside the heap. *)
Definition at_line {T A} (r : loc) (c : M Line A) : M (heap * T) A :=
  fun s =>
    match s.1 !! r with
    | Some l => let (l', o) := c l in ((<[r := l']> s.1, s.2), o)
    | None => (s, None)
    end.

(** Reading the object at [r]. *)
Definition read_line {T} (r : loc) : M (heap * T) Line :=
  at_line r get.

(** The fields of [self]. *)
Definition get_self {T} : M (heap * T) T := fun s => (s, Some s.2).

Definition put_self {T} (t : T) : M (heap * T) unit :=
  fun s => ((s.1, t), Some tt).

(** [list.remove(x)]: drops the first occurrence. *)
Fixpoint list_remove (x : loc) (l : list loc) : list loc :=
  match l with
  | [] => []
  | y :: l' => if decide (x = y) then l' else y :: list_remove x l'
  end.

(** The value of a test together with the fact that it has this value. *)
Definition inspect {A} (a : A) : {b | a = b} := exist _ a eq_refl.

(** ** class Lines *)

Record Lines := mkLines {
  elements : list loc;
  heights : list float;
  PCA_coefficients : list (list float);
  PCA_components : list (list float * list float)
}.

Definition set_elements (es : list loc) (c : Lines) : Lines :=
  mkLines es (heights c) (PCA_coefficients c) (PCA_components c).

Definition set_heights (hs : list float) (c : Lines) : Lines :=
  mkLines (elements c) hs (PCA_coefficients c) (PCA_components c).

(** What [subtract] returns: [None] at the end of the method, or the empty
    list after the message about the number of substrate lines. *)
Inductive subtract_result :=
| SubtractDone
| SubtractMismatch.

Module Lines.

(** [deepcopy] of a list of Line objects: one fresh object per distinct
    object, so that an object listed twice is copied once. *)
Fixpoint deepcopy (h : heap) (memo : gmap loc loc) (l : list loc)
  : option (heap * list loc) :=
  match l with
  | [] => Some (h, [])
  | r :: l' =>
      match memo !! r with
      | Some r' => '(h', out) ← deepcopy h memo l'; Some (h', r' :: out)
      | None =>
          o ← h !! r;
          let r' := fresh (dom h) in
          '(h', out) ← deepcopy (<[r' := o]> h) (<[r := r']> memo) l';
          Some (h', r' :: out)
      end
  end.

(** [__init__(elements)]. *)
Definition init (h : heap) (elems : list loc) : option (heap * Lines) :=
  '(h', es) ← deepcopy h ∅ elems;
  Some (h', mkLines es [] [] []).

(** [add_lines(new_lines)]: [in] on Line objects is identity, the class
    defines no [__eq__]. *)
Definition add_lines (new_lines : list loc) (self : Lines) : Lines :=
  fold_left
    (fun c new_line =>
       if decide (new_line ∈ elements c) then c
       else set_elements (elements c ++ [new_line]) c)
    new_lines self.

(** The [while True] loop of [del_lines] for one line. *)
Equations? remove_while (new_line : loc) (es : list loc) : list loc
  by wf (length es) lt :=
  remove_while new_line es with inspect (bool_decide (new_line ∈ es)) := {
    | exist _ true Hin => remove_while new_line (list_remove new_line es)
    | exist _ false _ => es }.
Proof.
  apply bool_decide_eq_true in Hin. clear remove_while.
  induction es as [|y l IH]; simpl.
  - inversion Hin.
  - destruct (decide (new_line = y)) as [->|Hne]; simpl; [lia|].
    apply elem_of_cons in Hin as [?|Hin]; [congruence|].
    specialize (IH Hin). lia.
Defined.

(** [del_lines(new_lines)]. *)
Definition del_lines (new_lines : list loc) (self : Lines) : Lines :=
  fold_left
    (fun c new_line => set_elements (remove_while new_line (elements c)) c)
    new_lines self.

(** The body of the first loop of [align] for the element [e]. *)
Definition align_step `{Numerics} (acc : list float * list float) (e : loc)
  : M (heap * Lines) (list float * list float) :=
  let! d := at_line e Line.align in
  let! _ := at_line e (fun l => (set_data d l, Some tt)) in
  let! l := read_line e in
  let! mn := try_pure (pymin (fst (data l))) in
  let! mx := try_pure (pymax (fst (data l))) in
  let! self := get_self in
  let! _ := put_self (set_heights (heights self ++ [height l]) self) in
  ret (acc.1 ++ [mn], acc.2 ++ [mx]).

(** The body of the second loop of [align]. *)
Definition reslice_step (xrange : list float) (_ : unit) (e : loc)
  : M (heap * Lines) unit :=
  at_line e (fun l =>
    match Line.slice_data l xrange with
    | Some d => (set_data d l, Some tt)
    | None => (l, None)
    end).

(** [align()]. *)
Definition align `{Numerics} : M (heap * Lines) unit :=
  let! self := get_self in
  let! (xmin_list, xmax_list) := for_each align_step ([], []) (elements self) in
  let! lo := try_pure (pymax xmin_list) in
  let! hi := try_pure (pymin xmax_list) in
  let xrange := [lo; hi] in
  let! self := get_self in
  for_each (reslice_step xrange) tt (elements self).

(** The body of the loop of [subtract] for the element [e] at index [i];
    [subs] is unbound unless the first test of the method bound it.
    Plotting ([display_sub]) does not touch the state. *)
Definition subtract_step `{Numerics} (subs : option (list loc))
    (display_range : list float) (i : nat) (e : loc)
  : M (heap * Lines) nat :=
  let! subs := try_pure subs in
  let! s := try_pure (subs !! i) in
  let! sub := read_line s in
  let! y_sub := try_pure (Line.spline (data sub)) in
  let! (shift0, height0) := at_line s Line.find_zlp_max in
  let! l := read_line e in
  let! y_data := try_pure (Line.spline (data l)) in
  let! (shift1, height1) := at_line e Line.find_zlp_max in
  let! x_data := try_pure (Line.default_linspace display_range) in
  let y_data_sample :=
    List.map (fun v => (y_data (v + shift1) / height1)%float) x_data in
  let y_sub_sample :=
    List.map (fun v => (y_sub (v + shift0) / height0)%float) x_data in
  let! l := read_line e in
  let! width := try_pure (Line.get_HWHM l) in
  let! diff := try_pure (np_binop PrimFloat.sub y_data_sample y_sub_sample) in
  let! _ := at_line e (fun l =>
              (set_name (name l ++ " Subtracted") (set_data (x_data, diff) l),
               Some tt)) in
  ret (S i).

(** [subtract(sub, display_range)]. *)
Definition subtract `{Numerics} (sub : list loc) (display_range : list float)
  : M (heap * Lines) subtract_result :=
  let! self := get_self in
  let subs :=
    if (length sub =? 1)%nat
    then Some (concat (replicate (length (elements self)) sub))
    else None in
  if negb (length sub =? length (elements self))%nat
  then ret SubtractMismatch
  else
    let! _ := for_each (subtract_step subs display_range) 0%nat (elements self) in
    ret SubtractDone.

(** [set_initial_elements(ele)]. *)
Definition set_initial_elements (ele : list loc) : M (heap * Lines) unit :=
  fun s =>
    match deepcopy s.1 ∅ ele with
    | Some (h', es) => ((h', set_elements es s.2), Some tt)
    | None => (s, None)
    end.

(** [slice_data(xrange)]: the loop body is that of the second loop of
    [align]. *)
Definition slice_data (xrange : list float) : M (heap * Lines) unit :=
  let! self := get_self in
  for_each (reslice_step xrange) tt (elements self).

(** The body of the loop of [normalize]:
    [e.data[1] = e.data[1] / e.height]. *)
Definition normalize_step (_ : unit) (e : loc) : M (heap * Lines) unit :=
  at_line e (fun l =>
    (set_data (fst (data l),
               List.map (fun v => (v / height l)%float) (snd (data l))) l,
     Some tt)).

(** [normalize()]. *)
Definition normalize : M (heap * Lines) unit :=
  let! self := get_self in
  for_each normalize_step tt (elements self).

(** The body of the loop of [denoise_LLR]: a copy of the element with the
    denoised data. *)
Definition denoise_step `{Numerics} (new_elements : list Line) (e : loc)
  : M (heap * Lines) (list Line) :=
  let! new_e := read_line e in
  let! d := try_pure (Line.denoise_LLR new_e 0.02%float 1) in
  ret (new_elements ++ [set_data d new_e]).

(** [denoise_LLR()]: returns new Line objects and leaves the elements. *)
Definition denoise_LLR `{Numerics} : M (heap * Lines) (list Line) :=
  let! self := get_self in
  for_each denoise_step [] (elements self).

(** [initial_process(display)].  With [display] the method draws the
    elements and then asks the first one for [HWHM()], a method that the
    class [Line] does not have. *)
Definition initial_process `{Numerics} (display : bool) : M (heap * Lines) unit :=
  let! _ := align in
  let! _ := normalize in
  if display then raise else ret tt.

End Lines.

(** ** class Mapping(Lines) *)

(** A numpy array of any rank: its shape and its items in row-major order. *)
Record ndarray := mkArray {
  shape : list nat;
  items : list float
}.

(** [np.reshape(a, [rows, -1])] by rows: the free dimension is the size
    divided by [rows], which must be positive and divide the size. *)
Definition np_reshape_rows (a : ndarray) (rows : nat) : option (list (list float)) :=
  let size := length (items a) in
  if (rows =? 0)%nat || negb (size mod rows =? 0)%nat then None
  else
    let k := (size / rows)%nat in
    Some (List.map (fun i => firstn k (skipn (i * k) (items a))) (seq 0 rows)).

(** [a[r, c, :]] for an array of shape [(m, n, k)]. *)
Definition np_cell (a : ndarray) (r c : nat) : option (list float) :=
  match shape a with
  | [m; n; k] =>
      if (r <? m)%nat && (c <? n)%nat
      then Some (firstn k (skipn ((r * n + c) * k) (items a)))
      else None
  | _ => None
  end.

(** The attributes that [set_initial_by_data] creates. *)
Record Grid := mkGrid {
  xdata : list float;
  ydata : ndarray;
  pixel_num_x : Z;
  pixel_num_y : Z;
  pixel_num_z : Z
}.

(** A Mapping has the fields of a Lines object and, once the data is set,
    those of the grid. *)
Record Mapping := mkMapping {
  as_Lines : Lines;
  grid : option Grid
}.

Module Mapping.

(** Fresh objects for a list of lines, in order. *)
Fixpoint alloc_all (h : heap) (ls : list Line) : heap * list loc :=
  match ls with
  | [] => (h, [])
  | l :: ls' =>
      let r := fresh (dom h) in
      let (h', rs) := alloc_all (<[r := l]> h) ls' in
      (h', r :: rs)
  end.

(** [set_initial_by_data(xdata, ydata)]: an array that is not of rank
    three only gets a message. *)
Definition set_initial_by_data (xd : list float) (yd : ndarray)
  : M (heap * Mapping) unit :=
  match shape yd with
  | [m; n; k] =>
      let! self := get_self in
      let g := mkGrid xd yd (Z.of_nat m) (Z.of_nat n) (Z.of_nat k) in
      let! _ := put_self (mkMapping (as_Lines self) (Some g)) in
      let! ydata_2d := try_pure (np_reshape_rows yd (m * n)) in
      let data_list := List.map (fun row => Line.init (xd, row) "") ydata_2d in
      fun s =>
        let (h', es) := alloc_all s.1 data_list in
        ((h', mkMapping (set_elements es (as_Lines s.2)) (grid s.2)), Some tt)
  | _ => ret tt
  end.

(** [coord_to_ind(select)]. *)
Definition coord_to_ind (self : Mapping) (select : Z * Z) : option Z :=
  g ← grid self;
  Some (select.1 * pixel_num_y g + select.2).

(** The line stored at a Python index of [elements]. *)
Definition element_at (h : heap) (self : Mapping) (index : Z) : option Line :=
  e ← py_index (elements (as_Lines self)) index;
  h !! e.

(** [newsp_y = newsp_y + e.data[1]] over the lines [ls]. *)
Fixpoint add_all (newsp_y : list float) (ls : list Line) : option (list float) :=
  match ls with
  | [] => Some newsp_y
  | l :: ls' =>
      y ← np_binop PrimFloat.add newsp_y (snd (data l));
      add_all y ls'
  end.

(** [select_sum_all()]. *)
Definition select_sum_all (h : heap) (self : Mapping)
  : option (list float * list float) :=
  l0 ← element_at h self 0;
  let newsp_x := fst (data l0) in
  let newsp_y := List.map (fun v => (0 * v)%float) (snd (data l0)) in
  ls ← mapM (fun e => h !! e) (elements (as_Lines self));
  newsp_y ← add_all newsp_y ls;
  Some (newsp_x, newsp_y).

(** [select_sum_by_list(select_list)]. *)
Definition select_sum_by_list (h : heap) (self : Mapping)
    (select_list : list (Z * Z)) : option (list float * list float) :=
  s0 ← select_list !! 0%nat;
  index ← coord_to_ind self s0;
  l0 ← element_at h self index;
  let newsp_x := fst (data l0) in
  let newsp_y := List.map (fun v => (0 * v)%float) (snd (data l0)) in
  ls ← mapM (fun s => index ← coord_to_ind self s; element_at h self index)
            select_list;
  newsp_y ← add_all newsp_y ls;
  let newsp_y :=
    List.map (fun v => (v / float_of_nat (length select_list))%float) newsp_y in
  Some (newsp_x, newsp_y).

(** The body of the loop of [normalize_map]:
    [self.elements[i].data[1] = e.data[1] / max_height]. *)
Definition normalize_map_step (max_height : float) (_ : unit) (e : loc)
  : M (heap * Mapping) unit :=
  at_line e (fun l =>
    (set_data (fst (data l),
               List.map (fun v => (v / max_height)%float) (snd (data l))) l,
     Some tt)).

(** [normalize_map()]: an empty list of heights only gets a message. *)
Definition normalize_map : M (heap * Mapping) unit :=
  let! self := get_self in
  match heights (as_Lines self) with
  | [] => ret tt
  | _ =>
      let! max_height := try_pure (pymax (heights (as_Lines self))) in
      for_each (normalize_map_step max_height) tt (elements (as_Lines self))
  end.

End Mapping.

(** ** Drivers and the properties under study *)

(** [k] successive calls of [Lines.align]. *)
Fixpoint align_times `{Numerics} (k : nat) : M (heap * Lines) unit :=
  match k with
  | O => ret tt
  | S k' => let! _ := Lines.align in align_times k'
  end.


(** Two stored lines are value-equal when their x values, y values and
    names are the same. *)
Definition value_equal (a b : Line) : Prop :=
  data a = data b /\ name a = name b.

(** Membership of a line in a collection up to value-equality. *)
Definition value_member (h : heap) (c : Lines) (r : loc) : Prop :=
  exists r' a b,
    r' ∈ elements c /\ h !! r' = Some a /\ h !! r = Some b /\ value_equal a b.

(** The width of the peak as the text of the specification describes it for
    [find_zlp_max]: the distance from the raw maximum to the last sample to
    its left that still exceeds half the raw maximum, read as the leftmost
    such sample (the maximum itself when there is none).  On the sample peak
    below a single sample qualifies, so the other reading, the nearest such
    sample, gives the same width. *)
Definition spec_single_sided_width (self : Line) : option float :=
  mx ← pymax (snd (data self));
  let half_max := (mx / 2)%float in
  i_max ← np_argmax (snd (data self));
  x_max ← fst (data self) !! i_max;
  let left := firstn (S i_max) (snd (data self)) in
  let indx := np_where_pos (List.map (fun v => (v - half_max)%float) left) in
  i ← list.head indx;
  x_left ← fst (data self) !! i;
  Some (PrimFloat.abs (x_max - x_left)%float).

(** The second-pass window with that width: the coarse peak plus and minus
    one and a half widths. *)
Definition spec_refine_window `{Numerics} (self : Line) : option (list float) :=
  test_shift ← Line.coarse_shift self;
  w ← spec_single_sided_width self;
  Some [ (test_shift - 1.5 * w)%float; (test_shift + 1.5 * w)%float ].

(** [region_sum] over every cell, the reading of [sum_all] in the
    specification: [select_sum_by_list] on all the coordinates of the grid. *)
Definition all_coords (rows cols : nat) : list (Z * Z) :=
  r ← seq 0 rows; c ← seq 0 cols; [(Z.of_nat r, Z.of_nat c)].

Definition spec_sum_all (h : heap) (self : Mapping)
  : option (list float * list float) :=
  g ← grid self;
  Mapping.select_sum_by_list h self
    (all_coords (Z.to_nat (pixel_num_x g)) (Z.to_nat (pixel_num_y g))).

(** ** Stand-ins for the numeric libraries and sample data

    Simple total functions in the place of scipy and scikit-learn, to run
    the methods on concrete data. *)

(** The value of the last sample at or before [t] (the first sample when
    [t] is before all of them). *)
Fixpoint step_interpolant (x y : list float) (dflt t : float) : float :=
  match x, y with
  | xi :: x', yi :: y' =>
      if (xi <=? t)%float then step_interpolant x' y' yi t else dflt
  | _, _ => dflt
  end.

Definition sample_spline (x y : list float) : option (float -> float) :=
  if (length x <? 4)%nat || negb (length x =? length y)%nat then None
  else Some (step_interpolant x y (List.hd 0%float y)).

Definition sample_PCA (ncomp : Z) (X : list (list float))
  : option (list (list float) * list (list float)) :=
  match X with
  | [] => None
  | row :: _ =>
      if ncomp <? 1 then None
      else Some (List.map (fun _ => replicate (Z.to_nat ncomp) 0%float) X,
                 replicate (Z.to_nat ncomp) (List.map (fun _ => 1%float) row))
  end.

Definition sample_mean (l : list float) : float :=
  (fold_left PrimFloat.add l 0 / float_of_nat (length l))%float.

Definition sample_find_peaks (y : list float) (hgt dist : float)
    (prom : option float) : option (list nat * list float) :=
  Some ([], []).

Definition sample_numerics : Numerics :=
  {| UnivariateSpline := sample_spline;
     PCA_fit := sample_PCA;
     np_mean := sample_mean;
     find_peaks := sample_find_peaks |}.

(** A peak sampled on nine points. *)
Definition sample_x : list float :=
  [-2; -1.5; -1; -0.5; 0; 0.5; 1; 1.5; 2]%float.

Definition sample_y : list float :=
  [0; 1; 2; 6; 10; 6; 2; 1; 0]%float.

Definition sample_line : Line := Line.init (sample_x, sample_y) "a".

(** The same peak one sample to the right. *)
Definition sample_line_b : Line :=
  Line.init (sample_x, [0; 0; 1; 2; 6; 10; 6; 2; 1]%float) "b".

Definition empty_lines : Lines := mkLines [] [] [] [].

(** A collection of three lines and a substrate beside it. *)
Definition sample_heap : heap :=
  <[0%nat := sample_line]> (<[1%nat := sample_line_b]>
    (<[2%nat := sample_line]> (<[3%nat := sample_line_b]> ∅))).

Definition sample_lines : Lines := mkLines [0; 1; 2]%nat [] [] [].

(** A 2 x 2 map with two channels per pixel. *)
Definition sample_cube : ndarray :=
  mkArray [2; 2; 2]%nat [1; 2; 3; 4; 5; 6; 7; 8]%float.

Definition sample_map : heap * Mapping :=
  (Mapping.set_initial_by_data [0; 1]%float sample_cube
     (∅, mkMapping empty_lines None)).1.

(** A 2 x 2 map with fifty channels per pixel. *)
Definition cube_2x2x50 : ndarray :=
  mkArray [2; 2; 50]%nat (List.map float_of_nat (seq 0 200)).

(** ** Notions used in the properties *)

(** A computation that never writes keeps the state whatever it returns. *)
Definition read_only {S A} (c : M S A) : Prop := forall s, (c s).1 = s.

(** A raw sample exceeds half the raw maximum [mx]: the test [d > 0] of
    [get_HWHM]. *)
Definition exceeds_half (mx v : float) : bool := (0 <? v - mx / 2)%float.

(** [a <= b] holds; neither is a NaN then. *)
Definition fle (a b : float) : Prop := (a <=? b)%float = true.

(** [a] and [b] compare equal. *)
Definition feq (a b : float) : Prop := fle a b /\ fle b a.

(** [min([a, b])] and [max([a, b])]. *)
Definition min2 (a b : float) : float := if (b <? a)%float then b else a.

Definition max2 (a b : float) : float := if (a <? b)%float then b else a.

(** The samples of [G] within [[lo, hi]], in their order. *)
Definition cut (G : list float) (lo hi : float) : list float :=
  List.filter (Line.in_range lo hi) G.

(** The x array of an object before and during the first loop of
    [Lines.align]: the shared grid [G], or [G] from its least sample [m0]
    up to some bound. *)
Definition on_grid (G : list float) (m0 : float) (xs : list float) : Prop :=
  xs = G \/ exists Hc, fle m0 Hc /\ xs = cut G m0 Hc.

(** An aligned object, with its greatest x value on record in [maxs]. *)
Definition aligned_at (G : list float) (m0 : float) (h : heap)
    (maxs : list float) (r : loc) : Prop :=
  exists l Hc mx,
    h !! r = Some l /\ fle m0 Hc /\ (data l).1 = cut G m0 Hc /\
    pymax (data l).1 = Some mx /\ In mx maxs.

(** The x array of an object before and during the second loop: [G] up to
    a bound that is not below [Hf]. *)
Definition above_cut (G : list float) (m0 Hf : float) (h : heap) (r : loc)
  : Prop :=
  exists l Hc, h !! r = Some l /\ fle Hf Hc /\ (data l).1 = cut G m0 Hc.

(** An object whose x array is the grid restricted to [[L, Hf]]. *)
Definition resliced (G : list float) (L Hf : float) (h : heap) (r : loc)
  : Prop :=
  exists l, h !! r = Some l /\ (data l).1 = cut G L Hf.

(** What a memo of the copy records, over the heap [h0] of before the copy
    and the current heap [h]: each copied object has one fresh copy that
    holds what the object holds, and no two objects share a copy. *)
Definition memo_ok (h0 h : heap) (memo : gmap loc loc) : Prop :=
  (forall r v, h0 !! r = Some v -> h !! r = Some v) /\
  (forall r r', memo !! r = Some r' ->
     h0 !! r' = None /\ exists o, h0 !! r = Some o /\ h !! r' = Some o) /\
  (forall r1 r2 r', memo !! r1 = Some r' -> memo !! r2 = Some r' -> r1 = r2).

(** The sample map after an alignment that recorded three heights. *)
Definition sample_map_heights : heap * Mapping :=
  (sample_map.1,
   mkMapping (set_heights [2; 4; 1]%float (as_Lines sample_map.2))
             (grid sample_map.2)).

(** * Properties *)

(** ** The monad *)

Lemma bind_Some {S A B} (c : M S A) (k : A -> M S B) s s' a :
  c s = (s', Some a) -> bind c k s = k a s'.
Proof. unfold bind. intros ->. reflexivity. Qed.

Lemma bind_None {S A B} (c : M S A) (k : A -> M S B) s s' :
  c s = (s', None) -> bind c k s = (s', None).
Proof. unfold bind. intros ->. reflexivity. Qed.

Lemma bind_inv {S A B} (c : M S A) (k : A -> M S B) s s' b :
  bind c k s = (s', Some b) ->
  exists s1 a, c s = (s1, Some a) /\ k a s1 = (s', Some b).
Proof.
  unfold bind. destruct (c s) as [s1 [a|]]; intros Heq.
  - exists s1, a. split; [reflexivity | exact Heq].
  - inversion Heq.
Qed.

Lemma try_pure_inv {S A} (o : option A) (s s' : S) a :
  try_pure o s = (s', Some a) -> s' = s /\ o = Some a.
Proof. unfold try_pure. intros Heq. inversion Heq. split; reflexivity. Qed.

(** One step of a successful run: splits a [bind] and names its parts. *)
Ltac run_inv H :=
  let s1 := fresh "s" in
  let a := fresh "a" in
  let H1 := fresh "Hrun" in
  apply bind_inv in H as (s1 & a & H1 & H);
  try (apply try_pure_inv in H1 as [-> H1]).

Lemma read_only_ret {S A} (a : A) : read_only (ret (S := S) a).
Proof. intros s. reflexivity. Qed.

Lemma read_only_try_pure {S A} (o : option A) : read_only (try_pure (S := S) o).
Proof. intros s. reflexivity. Qed.

Lemma read_only_bind {S A B} (c : M S A) (k : A -> M S B) :
  read_only c -> (forall a, read_only (k a)) -> read_only (bind c k).
Proof.
  intros Hc Hk s. unfold bind. specialize (Hc s).
  destruct (c s) as [s1 [a|]]; simpl in *; subst; [apply Hk | reflexivity].
Qed.

Ltac read_only_tac :=
  repeat first
    [ apply read_only_ret
    | apply read_only_try_pure
    | apply read_only_bind; [ | intros ? ]
    | match goal with |- read_only (let (_, _) := ?p in _) => destruct p end
    | match goal with |- read_only (match ?p with _ => _ end) => destruct p end ].

(** ** Line.slice_data *)

Lemma select_y_total (keep : float -> bool) (xs ys : list float) :
  (length xs <= length ys)%nat -> is_Some (Line.select_y keep xs ys).
Proof.
  revert ys. induction xs as [|x xs IH]; intros ys Hlen; simpl.
  - eexists; reflexivity.
  - destruct ys as [|y ys]; simpl in Hlen; [lia|].
    destruct (keep x).
    + destruct (IH ys) as [d Hd]; [lia|]. rewrite Hd. eexists; reflexivity.
    + apply IH. simpl. lia.
Qed.

Lemma slice_data_x (self : Line) (xrange : list float) lo hi d :
  pymin xrange = Some lo -> pymax xrange = Some hi ->
  Line.slice_data self xrange = Some d ->
  d.1 = List.filter (Line.in_range lo hi) (data self).1.
Proof.
  unfold Line.slice_data. intros -> ->. simpl.
  destruct (data self).1 as [|x xs] eqn:Hx.
  - intros [= <-]. reflexivity.
  - destruct (Line.select_y _ _ _); simpl; intros [= <-]. reflexivity.
Qed.

Lemma slice_data_total (self : Line) (xrange : list float) lo hi :
  pymin xrange = Some lo -> pymax xrange = Some hi ->
  (length (data self).1 <= length (data self).2)%nat ->
  is_Some (Line.slice_data self xrange).
Proof.
  unfold Line.slice_data. intros -> -> Hlen. simpl.
  destruct (data self).1 as [|x xs] eqn:Hx; [eexists; reflexivity|].
  destruct (select_y_total (Line.in_range lo hi) (x :: xs) (data self).2 Hlen)
    as [d2 Hd2].
  rewrite Hd2. eexists; reflexivity.
Qed.

(** ** Line.find_peak *)

Lemma find_peak_state `{Numerics} (xrange : list float)
    (cfg : gmap string pyval) (self : Line) :
  (Line.find_peak xrange cfg self).1 =
  match Line.slice_data self xrange with
  | Some d => set_data d self
  | None => self
  end.
Proof.
  unfold Line.find_peak.
  rewrite (bind_Some get _ self self self) by reflexivity.
  destruct (Line.slice_data self xrange) as [d|] eqn:Hd.
  - rewrite (bind_Some (try_pure (Some d)) _ self self d) by reflexivity.
    rewrite (bind_Some (put _) _ self (set_data d self) tt) by reflexivity.
    match goal with |- (?c _).1 = _ => assert (Hro : read_only c) end.
    { read_only_tac. }
    apply Hro.
  - rewrite (bind_None (try_pure None) _ self self) by reflexivity.
    reflexivity.
Qed.

(** C9. [find_peak] is a mutating operation: whatever the peak detection
    does afterwards, the call leaves in the Spectrum the slice of its data to
    [xrange], so its x array holds exactly the original samples within
    [[min(xrange), max(xrange)]], in their order; the name and the height
    are kept. *)
Theorem find_peak_replaces_data `{Numerics} (self : Line)
    (xrange : list float) (cfg : gmap string pyval) (lo hi : float) :
  pymin xrange = Some lo -> pymax xrange = Some hi ->
  (length (data self).1 <= length (data self).2)%nat ->
  let self' := (Line.find_peak xrange cfg self).1 in
  Line.slice_data self xrange = Some (data self') /\
  (data self').1 = List.filter (Line.in_range lo hi) (data self).1 /\
  name self' = name self /\ height self' = height self.
Proof.
  intros Hlo Hhi Hlen self'. subst self'. rewrite find_peak_state.
  destruct (slice_data_total self xrange lo hi Hlo Hhi Hlen) as [d Hd].
  rewrite Hd. simpl. repeat split.
  apply (slice_data_x self xrange lo hi d Hlo Hhi Hd).
Qed.

Lemma find_peak_replaces_data_witness :
  let self' := (Line.find_peak (H := sample_numerics) [-1; 1]%float ∅ sample_line).1 in
  Line.slice_data sample_line [-1; 1]%float = Some (data self') /\
  (data self').1 = List.filter (Line.in_range (-1) 1) (data sample_line).1 /\
  name self' = name sample_line /\ height self' = height sample_line.
Proof.
  apply (find_peak_replaces_data (H := sample_numerics) sample_line
           [-1; 1]%float ∅ (-1)%float 1%float eq_refl eq_refl).
  vm_compute. lia.
Defined.

(** ** Lines.align and the list of heights *)

Lemma at_line_self {T A} (r : loc) (c : M Line A) (s : heap * T) :
  (at_line r c s).1.2 = s.2.
Proof.
  unfold at_line. destruct (s.1 !! r) as [l|]; [|reflexivity].
  destruct (c l). reflexivity.
Qed.

Lemma at_line_inv {T A} (r : loc) (c : M Line A) (s s' : heap * T) a :
  at_line r c s = (s', Some a) ->
  exists l l', s.1 !! r = Some l /\ c l = (l', Some a) /\
               s' = (<[r := l']> s.1, s.2).
Proof.
  unfold at_line. destruct (s.1 !! r) as [l|] eqn:Hl; [|intros [=]].
  destruct (c l) as [l' o] eqn:Hc. intros [= <- ->].
  exists l, l'. split; [reflexivity|]. split; [exact Hc | reflexivity].
Qed.

Lemma align_step_self `{Numerics} acc e (s s' : heap * Lines) acc' :
  Lines.align_step acc e s = (s', Some acc') ->
  exists h, s'.2 = set_heights (heights s.2 ++ [h]) s.2.
Proof.
  unfold Lines.align_step. intros Hrun.
  run_inv Hrun. apply at_line_inv in Hrun0 as (l0 & l0' & _ & _ & ->).
  run_inv Hrun. apply at_line_inv in Hrun0 as (l1 & l1' & _ & _ & ->).
  run_inv Hrun. apply at_line_inv in Hrun0 as (l2 & l2' & _ & _ & ->).
  run_inv Hrun. run_inv Hrun.
  run_inv Hrun. inversion Hrun2; subst; clear Hrun2.
  run_inv Hrun. inversion Hrun2; subst; clear Hrun2.
  inversion Hrun; subst; clear Hrun. simpl.
  eexists. reflexivity.
Qed.

Lemma align_loop_self `{Numerics} (es : list loc) acc (s s' : heap * Lines) acc' :
  for_each Lines.align_step acc es s = (s', Some acc') ->
  elements s'.2 = elements s.2 /\
  length (heights s'.2) = (length (heights s.2) + length es)%nat.
Proof.
  revert acc s. induction es as [|e es IH]; intros acc s; simpl.
  - intros [= <- <-]. split; [reflexivity | lia].
  - intros Hrun. run_inv Hrun.
    apply align_step_self in Hrun0 as [h Hs].
    apply IH in Hrun as [He Hh]. rewrite He, Hh, Hs. simpl.
    rewrite length_app. simpl. split; [reflexivity | lia].
Qed.

Lemma reslice_loop_self (xrange : list float) (es : list loc)
    (s s' : heap * Lines) o :
  for_each (Lines.reslice_step xrange) tt es s = (s', o) -> s'.2 = s.2.
Proof.
  revert s. induction es as [|e es IH]; intros s; simpl.
  - intros [= <- <-]. reflexivity.
  - unfold bind.
    pose proof (at_line_self (T := Lines) e
      (fun l => match Line.slice_data l xrange with
                | Some d => (set_data d l, Some tt)
                | None => (l, None)
                end) s) as Hself.
    unfold Lines.reslice_step at 1.
    destruct (at_line e _ s) as [s1 [[]|]]; simpl in Hself.
    + intros Hrun. apply IH in Hrun. congruence.
    + intros [= <- <-]. exact Hself.
Qed.

Lemma align_self `{Numerics} (s s' : heap * Lines) :
  Lines.align s = (s', Some tt) ->
  elements s'.2 = elements s.2 /\
  length (heights s'.2) = (length (heights s.2) + length (elements s.2))%nat.
Proof.
  unfold Lines.align. intros Hrun.
  run_inv Hrun. inversion Hrun0; subst; clear Hrun0.
  run_inv Hrun. destruct a as [xmin_list xmax_list].
  apply align_loop_self in Hrun0 as [He Hh].
  run_inv Hrun. run_inv Hrun.
  run_inv Hrun. inversion Hrun2; subst; clear Hrun2.
  apply reslice_loop_self in Hrun. rewrite Hrun. split; assumption.
Qed.

Lemma align_times_self `{Numerics} (k : nat) (s s' : heap * Lines) :
  align_times k s = (s', Some tt) ->
  elements s'.2 = elements s.2 /\
  length (heights s'.2) =
    (length (heights s.2) + k * length (elements s.2))%nat.
Proof.
  revert s. induction k as [|k IH]; intros s; simpl.
  - intros [= <-]. split; [reflexivity | lia].
  - intros Hrun. run_inv Hrun. destruct a.
    apply align_self in Hrun0 as [He Hh].
    apply IH in Hrun as [He' Hh']. rewrite He', Hh', He, Hh.
    split; [reflexivity | lia].
Qed.

(** C10. [Lines.align] appends one height per element and never clears the
    list: after [k] successive calls on a collection of [n] elements whose
    list of heights was empty, the list holds [k * n] heights and the
    elements are the same [n], so (for [n >= 1]) the heights are parallel
    to the elements exactly when [k = 1]. *)
Theorem align_heights_accumulate `{Numerics} (k : nat) (s s' : heap * Lines) :
  heights s.2 = [] ->
  align_times k s = (s', Some tt) ->
  length (heights s'.2) = (k * length (elements s.2))%nat /\
  length (elements s'.2) = length (elements s.2) /\
  ((1 <= length (elements s.2))%nat ->
   length (heights s'.2) = length (elements s'.2) <-> k = 1%nat).
Proof.
  intros Hempty Hrun. apply align_times_self in Hrun as [He Hh].
  rewrite Hempty in Hh. simpl in Hh. rewrite Hh, He.
  split; [reflexivity|]. split; [reflexivity|].
  intros Hn. split; intros Hk; [nia | subst k; lia].
Qed.

Lemma align_heights_accumulate_witness :
  exists s',
    align_times (H := sample_numerics) 2 (sample_heap, sample_lines) = (s', Some tt) /\
    length (heights s'.2) = 6%nat /\ length (elements s'.2) = 3%nat.
Proof.
  eexists. split; [vm_compute; reflexivity|].
  destruct (align_heights_accumulate (H := sample_numerics) 2
              (sample_heap, sample_lines) _ eq_refl
              ltac:(vm_compute; reflexivity)) as (Hh & He & _).
  split; [exact Hh | exact He].
Defined.

(** ** Lines.subtract *)

Lemma subtract_count_guard `{Numerics} (sub : list loc)
    (display_range : list float) (s : heap * Lines) :
  length sub <> length (elements s.2) ->
  Lines.subtract sub display_range s = (s, Some SubtractMismatch).
Proof.
  intros Hne. unfold Lines.subtract.
  rewrite (bind_Some get_self _ s s s.2) by reflexivity.
  destruct (Nat.eqb_spec (length sub) (length (elements s.2))) as [Heq|_];
    [contradiction|].
  reflexivity.
Qed.

(** X2. A one-to-one list of two or more substrates reaches the loop with
    [subs] unbound: the first iteration raises and the state is unchanged. *)
Lemma subtract_one_to_one_raises `{Numerics} (sub : list loc)
    (display_range : list float) (s : heap * Lines) :
  length sub = length (elements s.2) -> (2 <= length sub)%nat ->
  Lines.subtract sub display_range s = (s, None).
Proof.
  intros Hlen Hn. unfold Lines.subtract.
  rewrite (bind_Some get_self _ s s s.2) by reflexivity.
  destruct (Nat.eqb_spec (length sub) 1) as [H1|_]; [lia|].
  destruct (Nat.eqb_spec (length sub) (length (elements s.2))) as [_|Hne];
    [|contradiction].
  simpl. destruct (elements s.2) as [|e es] eqn:Hes; [simpl in Hlen; lia|].
  reflexivity.
Qed.

(** C1. The guard of [subtract] compares the number of substrates with the
    number of elements even after the broadcast: with one substrate and a
    collection that does not have exactly one element, the call reports a
    mismatch and leaves every object as it was, instead of broadcasting. *)
Theorem subtract_broadcast_refused `{Numerics} (sub : loc)
    (display_range : list float) (s : heap * Lines) :
  length (elements s.2) <> 1%nat ->
  Lines.subtract [sub] display_range s = (s, Some SubtractMismatch).
Proof.
  intros Hn. apply subtract_count_guard. simpl. congruence.
Qed.

Lemma subtract_broadcast_refused_witness :
  length (elements sample_lines) = 3%nat /\
  Lines.subtract (H := sample_numerics) [3%nat] [-1; 1]%float
    (sample_heap, sample_lines)
  = ((sample_heap, sample_lines), Some SubtractMismatch).
Proof.
  split; [reflexivity|].
  apply (subtract_broadcast_refused (H := sample_numerics) 3%nat
           [-1; 1]%float (sample_heap, sample_lines)).
  simpl. lia.
Defined.

(** C5. With one substrate and a collection of three elements, [subtract]
    leaves the substrate object as it was: its data, its name and its
    height are those of before the call (and so is every other object). *)
Theorem subtract_keeps_substrate `{Numerics} (sub : loc)
    (display_range : list float) (h : heap) (c : Lines) :
  length (elements c) = 3%nat ->
  let h' := (Lines.subtract [sub] display_range (h, c)).1.1 in
  h' = h /\
  forall l, h !! sub = Some l ->
    exists l', h' !! sub = Some l' /\
      data l' = data l /\ name l' = name l /\ height l' = height l.
Proof.
  intros Hn h'. subst h'.
  rewrite (subtract_count_guard [sub] display_range (h, c))
    by (simpl; rewrite Hn; lia).
  simpl. split; [reflexivity|].
  intros l Hl. exists l. repeat split. exact Hl.
Qed.

Lemma subtract_keeps_substrate_witness :
  let h' := (Lines.subtract (H := sample_numerics) [3%nat] [-1; 1]%float
               (sample_heap, sample_lines)).1.1 in
  h' = sample_heap /\
  forall l, sample_heap !! 3%nat = Some l ->
    exists l', h' !! 3%nat = Some l' /\
      data l' = data l /\ name l' = name l /\ height l' = height l.
Proof.
  apply (subtract_keeps_substrate (H := sample_numerics) 3%nat [-1; 1]%float
           sample_heap sample_lines).
  reflexivity.
Defined.

(** ** Mapping: the grid and the flat list of elements *)

Lemma alloc_all_spec (ls : list Line) :
  forall (h h' : heap) (rs : list loc),
    Mapping.alloc_all h ls = (h', rs) ->
    length rs = length ls /\
    (forall r v, h !! r = Some v -> h' !! r = Some v) /\
    (forall i l, ls !! i = Some l ->
       exists r, rs !! i = Some r /\ h' !! r = Some l).
Proof.
  induction ls as [|l ls IH]; intros h h' rs; simpl.
  - intros [= <- <-]. repeat split; [auto|]. intros i l0 Hi. destruct i; inversion Hi.
  - destruct (Mapping.alloc_all (<[fresh (dom h) := l]> h) ls) as [h1 rs1] eqn:Hrec.
    intros [= <- <-].
    destruct (IH _ _ _ Hrec) as (Hlen & Hkeep & Hget).
    assert (Hfresh : h !! fresh (dom h) = None).
    { apply not_elem_of_dom. apply is_fresh. }
    split; [simpl; congruence|]. split.
    + intros r v Hr. apply Hkeep. rewrite lookup_insert_ne; [exact Hr|].
      intros Heq. rewrite Heq in Hfresh. congruence.
    + intros [|i] l0 Hi; simpl in Hi.
      * inversion Hi; subst. exists (fresh (dom h)). split; [reflexivity|].
        apply Hkeep. apply lookup_insert_eq.
      * destruct (Hget i l0 Hi) as (r & Hr & Hl). exists r. split; assumption.
Qed.

Lemma np_reshape_rows_exact (yd : ndarray) (rows k : nat) :
  (0 < rows)%nat -> length (items yd) = (rows * k)%nat ->
  np_reshape_rows yd rows =
  Some (List.map (fun i => firstn k (skipn (i * k) (items yd))) (seq 0 rows)).
Proof.
  intros Hrows Hsize. unfold np_reshape_rows. rewrite Hsize.
  destruct (Nat.eqb_spec rows 0) as [->|_]; [lia|].
  rewrite (Nat.mul_comm rows k), Nat.Div0.mod_mul, Nat.div_mul by lia.
  reflexivity.
Qed.

Lemma py_index_nat {A} (l : list A) (i : nat) :
  (i < length l)%nat -> py_index l (Z.of_nat i) = l !! i.
Proof.
  intros Hi. unfold py_index.
  destruct (Z.leb_spec 0 (Z.of_nat i)); [|lia].
  destruct (Z.ltb_spec (Z.of_nat i) (Z.of_nat (length l))); [|lia].
  simpl. rewrite Nat2Z.id. reflexivity.
Qed.

(** C8. A Mapping built from an [m x n x k] cube is row-major with [n]
    columns: for [r < m] and [c < n], [coord_to_ind((r, c))] is
    [r * n + c], and the element at that index is the Line made of the x
    axis and the curve of cell [(r, c)] of the cube. *)
Theorem coord_to_ind_row_major (xd : list float) (yd : ndarray)
    (m n k r c : nat) (s : heap * Mapping) :
  shape yd = [m; n; k] -> length (items yd) = (m * n * k)%nat ->
  (r < m)%nat -> (c < n)%nat ->
  let run := Mapping.set_initial_by_data xd yd s in
  run.2 = Some tt /\
  Mapping.coord_to_ind run.1.2 (Z.of_nat r, Z.of_nat c)
    = Some (Z.of_nat r * Z.of_nat n + Z.of_nat c) /\
  exists cell,
    np_cell yd r c = Some cell /\
    Mapping.element_at run.1.1 run.1.2 (Z.of_nat r * Z.of_nat n + Z.of_nat c)
      = Some (Line.init (xd, cell) "").
Proof.
  intros Hshape Hsize Hr Hc run. subst run.
  assert (Hidx : (r * n + c < m * n)%nat) by nia.
  unfold Mapping.set_initial_by_data. rewrite Hshape.
  unfold bind, get_self, put_self, try_pure. simpl.
  rewrite (np_reshape_rows_exact yd (m * n) k) by (simpl; lia).
  destruct (Mapping.alloc_all s.1 _) as [h' es] eqn:Halloc. simpl.
  apply alloc_all_spec in Halloc as (Hlen & _ & Hget).
  rewrite length_map, length_map, length_seq in Hlen.
  split; [reflexivity|]. split; [reflexivity|].
  exists (firstn k (skipn ((r * n + c) * k) (items yd))). split.
  - unfold np_cell. rewrite Hshape.
    destruct (Nat.ltb_spec r m); [|lia]. destruct (Nat.ltb_spec c n); [|lia].
    reflexivity.
  - unfold Mapping.element_at. simpl.
    replace (Z.of_nat r * Z.of_nat n + Z.of_nat c) with (Z.of_nat (r * n + c)) by lia.
    rewrite py_index_nat by lia.
    destruct (Hget (r * n + c)%nat
                (Line.init (xd, firstn k (skipn ((r * n + c) * k) (items yd))) ""))
      as (e & He & Hl).
    { rewrite list_lookup_fmap, list_lookup_fmap.
      rewrite lookup_seq_lt by lia. reflexivity. }
    rewrite He. simpl. exact Hl.
Qed.

Lemma coord_to_ind_row_major_witness :
  let run := Mapping.set_initial_by_data (List.map float_of_nat (seq 0 50))
               cube_2x2x50 (∅, mkMapping empty_lines None) in
  run.2 = Some tt /\
  Mapping.coord_to_ind run.1.2 (1, 1) = Some 3 /\
  exists cell,
    np_cell cube_2x2x50 1 1 = Some cell /\
    Mapping.element_at run.1.1 run.1.2 3
      = Some (Line.init (List.map float_of_nat (seq 0 50), cell) "").
Proof.
  apply (coord_to_ind_row_major (List.map float_of_nat (seq 0 50)) cube_2x2x50
           2 2 50 1 1 (∅, mkMapping empty_lines None)).
  - reflexivity.
  - reflexivity.
  - lia.
  - lia.
Defined.

(** C2. [select_sum_all] returns the bare sum of the y arrays: on the
    2 x 2 sample map the cells [1 2], [3 4], [5 6], [7 8] give [16 20],
    whereas [select_sum_by_list] over the same four cells, which divides by
    their number, gives the mean [4 5]. *)
Theorem select_sum_all_is_bare_sum :
  Mapping.select_sum_all sample_map.1 sample_map.2
    = Some ([0; 1]%float, [16; 20]%float) /\
  spec_sum_all sample_map.1 sample_map.2
    = Some ([0; 1]%float, [4; 5]%float).
Proof.
  split; vm_compute; reflexivity.
Qed.

(** ** Lines.add_lines and Lines.del_lines *)

Lemma filter_list_remove (r : loc) (es : list loc) :
  List.filter (fun e => negb (e =? r)%nat) (list_remove r es)
  = List.filter (fun e => negb (e =? r)%nat) es.
Proof.
  induction es as [|y es IH]; simpl; [reflexivity|].
  destruct (decide (r = y)) as [->|Hne]; simpl.
  - rewrite Nat.eqb_refl. reflexivity.
  - destruct (Nat.eqb_spec y r) as [Heq|_]; [congruence|]. simpl.
    rewrite IH. reflexivity.
Qed.

Lemma filter_absent (r : loc) (es : list loc) :
  r ∉ es -> List.filter (fun e => negb (e =? r)%nat) es = es.
Proof.
  induction es as [|y es IH]; simpl; intros Hnin; [reflexivity|].
  apply not_elem_of_cons in Hnin as [Hne Hnin].
  destruct (Nat.eqb_spec y r) as [Heq|_]; [congruence|]. simpl.
  rewrite IH by exact Hnin. reflexivity.
Qed.

Lemma remove_while_filter (r : loc) (es : list loc) :
  Lines.remove_while r es = List.filter (fun e => negb (e =? r)%nat) es.
Proof.
  funelim (Lines.remove_while r es).
  - match goal with IH : Lines.remove_while _ _ = List.filter _ _ |- _ =>
      rewrite IH end.
    apply filter_list_remove.
  - symmetry. apply filter_absent.
    match goal with Hd : bool_decide _ = false |- _ =>
      exact (proj1 (bool_decide_eq_false _) Hd) end.
Qed.

(** C4, as the code has it. [in] and [remove] on Line objects go by
    identity: adding an object that is already in [elements] changes
    nothing, and deleting it removes every occurrence of that object and
    keeps the other elements in their order. *)
Theorem add_del_lines_by_identity (c : Lines) (r : loc) :
  r ∈ elements c ->
  Lines.add_lines [r] c = c /\
  elements (Lines.del_lines [r] c)
    = List.filter (fun e => negb (e =? r)%nat) (elements c) /\
  r ∉ elements (Lines.del_lines [r] c).
Proof.
  intros Hin. split; [|split].
  - unfold Lines.add_lines. simpl.
    destruct (decide (r ∈ elements c)); [reflexivity | contradiction].
  - unfold Lines.del_lines. simpl. apply remove_while_filter.
  - unfold Lines.del_lines. simpl. rewrite remove_while_filter.
    rewrite list_elem_of_In, filter_In. intros [_ Hr].
    rewrite Nat.eqb_refl in Hr. discriminate.
Qed.

Lemma add_del_lines_by_identity_witness :
  Lines.add_lines [1%nat] (mkLines [0; 1; 2; 1]%nat [] [] [])
    = mkLines [0; 1; 2; 1]%nat [] [] [] /\
  elements (Lines.del_lines [1%nat] (mkLines [0; 1; 2; 1]%nat [] [] []))
    = [0; 2]%nat /\
  1%nat ∉ elements (Lines.del_lines [1%nat] (mkLines [0; 1; 2; 1]%nat [] [] [])).
Proof.
  apply (add_del_lines_by_identity (mkLines [0; 1; 2; 1]%nat [] [] []) 1%nat).
  simpl. apply list_elem_of_In. simpl. auto.
Defined.

(** An object that is not in [elements] is appended, whatever it holds. *)
Lemma add_lines_new_object (c : Lines) (r : loc) :
  r ∉ elements c -> elements (Lines.add_lines [r] c) = elements c ++ [r].
Proof.
  intros Hnin. unfold Lines.add_lines. simpl.
  destruct (decide (r ∈ elements c)); [contradiction | reflexivity].
Qed.

(** C4 as stated fails: the lines at 0 and 2 of the sample heap hold the
    same x values, y values and name, yet adding the second to a collection
    that holds the first appends it. *)
Lemma add_lines_value_equal_counterexample :
  ~ (forall (h : heap) (c : Lines) (r : loc),
       value_member h c r ->
       elements (Lines.add_lines [r] c) = elements c).
Proof.
  intros Hclaim.
  specialize (Hclaim sample_heap (mkLines [0%nat] [] [] []) 2%nat).
  assert (Hm : value_member sample_heap (mkLines [0%nat] [] [] []) 2%nat).
  { exists 0%nat, sample_line, sample_line. repeat split.
    simpl. apply list_elem_of_In. simpl. auto. }
  specialize (Hclaim Hm). vm_compute in Hclaim. discriminate Hclaim.
Qed.

(** ** Line.denoise_LLR *)








(** ** Line.get_HWHM and Line.find_zlp_max *)

Lemma np_where_pos_none (i : nat) (d : list float) :
  np_where_pos_from i d = [] ->
  forall k v, d !! k = Some v -> (0 <? v)%float = false.
Proof.
  revert i. induction d as [|u d IH]; intros i Hnil k v Hk.
  - destruct k; inversion Hk.
  - simpl in Hnil. destruct (0 <? u)%float eqn:Hu; [discriminate|].
    destruct k as [|k]; simpl in Hk.
    + inversion Hk; subst. exact Hu.
    + exact (IH (S i) Hnil k v Hk).
Qed.

Lemma np_where_pos_head (i : nat) (d : list float) (a : nat) :
  list.head (np_where_pos_from i d) = Some a ->
  (i <= a)%nat /\
  (exists v, d !! (a - i)%nat = Some v /\ (0 <? v)%float = true) /\
  (forall k v, (k < a - i)%nat -> d !! k = Some v -> (0 <? v)%float = false).
Proof.
  revert i. induction d as [|u d IH]; intros i; simpl; [intros [=]|].
  destruct (0 <? u)%float eqn:Hu; simpl.
  - intros [= <-]. split; [lia|]. rewrite Nat.sub_diag. split.
    + exists u. split; [reflexivity | exact Hu].
    + intros k v Hk. lia.
  - intros Hhd. destruct (IH (S i) Hhd) as (Hle & (v & Hv & Hpos) & Hbefore).
    split; [lia|]. split.
    + exists v. split; [|exact Hpos].
      replace (a - i)%nat with (S (a - S i)) by lia. exact Hv.
    + intros [|k] w Hk Hw; simpl in Hw.
      * inversion Hw; subst. exact Hu.
      * apply (Hbefore k w); [lia | exact Hw].
Qed.

Lemma np_where_pos_last (i : nat) (d : list float) (b : nat) :
  list.last (np_where_pos_from i d) = Some b ->
  (i <= b)%nat /\
  (exists v, d !! (b - i)%nat = Some v /\ (0 <? v)%float = true) /\
  (forall k v, (b - i < k)%nat -> d !! k = Some v -> (0 <? v)%float = false).
Proof.
  revert i. induction d as [|u d IH]; intros i; simpl; [intros [=]|].
  destruct (0 <? u)%float eqn:Hu.
  - rewrite last_cons.
    destruct (list.last (np_where_pos_from (S i) d)) as [b'|] eqn:Hlast.
    + intros [= <-].
      destruct (IH (S i) Hlast) as (Hle & (v & Hv & Hpos) & Hafter).
      split; [lia|]. split.
      * exists v. split; [|exact Hpos].
        replace (b' - i)%nat with (S (b' - S i)) by lia. exact Hv.
      * intros [|k] w Hk Hw; [lia|]. simpl in Hw.
        apply (Hafter k w); [lia | exact Hw].
    + intros [= <-]. apply last_None in Hlast.
      split; [lia|]. rewrite Nat.sub_diag. split.
      * exists u. split; [reflexivity | exact Hu].
      * intros [|k] w Hk Hw; [lia|]. simpl in Hw.
        exact (np_where_pos_none (S i) d Hlast k w Hw).
  - intros Hlast.
    destruct (IH (S i) Hlast) as (Hle & (v & Hv & Hpos) & Hafter).
    split; [lia|]. split.
    + exists v. split; [|exact Hpos].
      replace (b - i)%nat with (S (b - S i)) by lia. exact Hv.
    + intros [|k] w Hk Hw; [lia|]. simpl in Hw.
      apply (Hafter k w); [lia | exact Hw].
Qed.

Lemma Forall2_head_inv {A B} (R : A -> B -> Prop) (l : list A) (k : list B) b :
  Forall2 R l k -> list.head k = Some b ->
  exists a, list.head l = Some a /\ R a b.
Proof.
  intros HF. destruct HF as [|a b' l k HR _]; simpl; [intros [=]|].
  intros [= <-]. exists a. split; [reflexivity | exact HR].
Qed.

Lemma Forall2_last_inv {A B} (R : A -> B -> Prop) (l : list A) (k : list B) b :
  Forall2 R l k -> list.last k = Some b ->
  exists a, list.last l = Some a /\ R a b.
Proof.
  intros HF. induction HF as [|a b' l k HR HF IH]; [intros [=]|].
  rewrite !last_cons.
  destruct (list.last k) as [bk|] eqn:Hk.
  - intros [= <-]. destruct (IH eq_refl) as (al & Hal & HRl).
    rewrite Hal. exists al. split; [reflexivity | exact HRl].
  - intros [= <-]. apply last_None in Hk. subst k.
    inversion HF; subst. exists a. split; [reflexivity | exact HR].
Qed.

(** [get_HWHM] is the distance between the first and the last raw sample
    that exceed half the raw maximum. *)
Lemma get_HWHM_span (self : Line) (w : float) :
  Line.get_HWHM self = Some w ->
  exists mx i j xi xj,
    pymax (data self).2 = Some mx /\
    (i <= j)%nat /\
    (exists v, (data self).2 !! i = Some v /\ exceeds_half mx v = true) /\
    (forall k v, (k < i)%nat -> (data self).2 !! k = Some v ->
                 exceeds_half mx v = false) /\
    (exists v, (data self).2 !! j = Some v /\ exceeds_half mx v = true) /\
    (forall k v, (j < k)%nat -> (data self).2 !! k = Some v ->
                 exceeds_half mx v = false) /\
    (data self).1 !! i = Some xi /\ (data self).1 !! j = Some xj /\
    w = PrimFloat.abs (xj - xi)%float.
Proof.
  unfold Line.get_HWHM.
  destruct (pymax (data self).2) as [mx|]; simpl; [|intros [=]].
  set (d := List.map (fun v => (v - mx / 2)%float) (data self).2).
  destruct (np_take (data self).1 (np_where_pos d)) as [sel|] eqn:Hsel;
    simpl; [|intros [=]].
  destruct (list.last sel) as [hi|] eqn:Hhi; simpl; [|intros [=]].
  destruct (list.head sel) as [lo|] eqn:Hlo; simpl; [|intros [=]].
  intros [= <-].
  unfold np_take in Hsel. apply mapM_Some in Hsel.
  destruct (Forall2_head_inv _ _ _ _ Hsel Hlo) as (i & Hi & Hxi).
  destruct (Forall2_last_inv _ _ _ _ Hsel Hhi) as (j & Hj & Hxj).
  unfold np_where_pos in Hi, Hj.
  apply np_where_pos_head in Hi as (_ & (vi & Hvi & Hposi) & Hbefore).
  apply np_where_pos_last in Hj as (_ & (vj & Hvj & Hposj) & Hafter).
  rewrite Nat.sub_0_r in *.
  assert (Hd : forall k u, d !! k = Some u ->
            exists v, (data self).2 !! k = Some v /\ u = (v - mx / 2)%float).
  { intros k u Hk. unfold d in Hk. rewrite list_lookup_fmap in Hk.
    destruct ((data self).2 !! k) as [v|]; simpl in Hk; [|discriminate].
    inversion Hk; subst. exists v. split; reflexivity. }
  assert (Hd' : forall k v, (data self).2 !! k = Some v ->
            d !! k = Some (v - mx / 2)%float).
  { intros k v Hk. unfold d. rewrite list_lookup_fmap, Hk. reflexivity. }
  destruct (Hd i vi Hvi) as (yi & Hyi & ->).
  destruct (Hd j vj Hvj) as (yj & Hyj & ->).
  exists mx, i, j, lo, hi. split; [reflexivity|]. split.
  { destruct (Nat.le_gt_cases i j) as [Hle|Hgt]; [exact Hle|].
    rewrite (Hafter i _ Hgt Hvi) in Hposi. discriminate. }
  split; [exists yi; split; assumption|]. split.
  { intros k v Hk Hv. apply (Hbefore k _ Hk (Hd' k v Hv)). }
  split; [exists yj; split; assumption|]. split.
  { intros k v Hk Hv. apply (Hafter k _ Hk (Hd' k v Hv)). }
  split; [exact Hxi|]. split; [exact Hxj | reflexivity].
Qed.

(** C3, as the code has it. The window of the second pass of
    [find_zlp_max] is centred at the coarse peak [test_shift] and reaches
    [width / 2 * 3] (one and a half widths) to each side, where [width] is
    the distance between the first and the last raw sample that exceed half
    the raw maximum, on both sides of the peak; the refined shift is the
    grid point at the argmax of the spline over 2000 points of that window,
    the height is the greatest of these spline values and is stored. *)
Theorem find_zlp_max_window `{Numerics} (self self' : Line) (shift hgt : float) :
  Line.find_zlp_max self = (self', Some (shift, hgt)) ->
  exists y_spl test_shift mx i j xi xj x_zlp k,
    Line.spline (data self) = Some y_spl /\
    Line.coarse_shift self = Some test_shift /\
    pymax (data self).2 = Some mx /\
    (i <= j)%nat /\
    (exists v, (data self).2 !! i = Some v /\ exceeds_half mx v = true) /\
    (forall k' v, (k' < i)%nat -> (data self).2 !! k' = Some v ->
                  exceeds_half mx v = false) /\
    (exists v, (data self).2 !! j = Some v /\ exceeds_half mx v = true) /\
    (forall k' v, (j < k')%nat -> (data self).2 !! k' = Some v ->
                  exceeds_half mx v = false) /\
    (data self).1 !! i = Some xi /\ (data self).1 !! j = Some xj /\
    let width := PrimFloat.abs (xj - xi)%float in
    Line.refine_window self
      = Some [ (test_shift - width / 2 * 3)%float;
               (test_shift + width / 2 * 3)%float ] /\
    Line.default_linspace
      [ (test_shift - width / 2 * 3)%float; (test_shift + width / 2 * 3)%float ]
      = Some x_zlp /\
    np_argmax (List.map y_spl x_zlp) = Some k /\
    x_zlp !! k = Some shift /\
    pymax (List.map y_spl x_zlp) = Some hgt /\
    self' = set_height hgt self.
Proof.
  unfold Line.find_zlp_max. intros Hrun.
  run_inv Hrun. inversion Hrun0; subst; clear Hrun0.
  run_inv Hrun. run_inv Hrun. run_inv Hrun. run_inv Hrun. run_inv Hrun.
  run_inv Hrun. run_inv Hrun. inversion Hrun6; subst; clear Hrun6.
  inversion Hrun; subst; clear Hrun.
  unfold Line.refine_window in Hrun1.
  destruct (Line.coarse_shift a) as [test_shift|] eqn:Hcs; simpl in Hrun1;
    [|discriminate].
  destruct (Line.get_HWHM a) as [w|] eqn:Hw; simpl in Hrun1; [|discriminate].
  inversion Hrun1; subst; clear Hrun1.
  destruct (get_HWHM_span a w Hw)
    as (mx & i & j & xi & xj & Hmx & Hij & Hi & Hbefore & Hj & Hafter & Hxi & Hxj & ->).
  exists a0, test_shift, mx, i, j, xi, xj, a2, a3.
  unfold Line.refine_window. rewrite Hcs, Hw. simpl.
  repeat (split; [assumption || reflexivity|]). reflexivity.
Qed.

Lemma find_zlp_max_window_witness :
  exists self' shift hgt y_spl test_shift mx i j xi xj x_zlp k,
    Line.find_zlp_max (H := sample_numerics) sample_line
      = (self', Some (shift, hgt)) /\
    Line.spline (H := sample_numerics) (data sample_line) = Some y_spl /\
    Line.coarse_shift (H := sample_numerics) sample_line = Some test_shift /\
    pymax (data sample_line).2 = Some mx /\
    (i <= j)%nat /\
    (exists v, (data sample_line).2 !! i = Some v /\ exceeds_half mx v = true) /\
    (forall k' v, (k' < i)%nat -> (data sample_line).2 !! k' = Some v ->
                  exceeds_half mx v = false) /\
    (exists v, (data sample_line).2 !! j = Some v /\ exceeds_half mx v = true) /\
    (forall k' v, (j < k')%nat -> (data sample_line).2 !! k' = Some v ->
                  exceeds_half mx v = false) /\
    (data sample_line).1 !! i = Some xi /\ (data sample_line).1 !! j = Some xj /\
    let width := PrimFloat.abs (xj - xi)%float in
    Line.refine_window (H := sample_numerics) sample_line
      = Some [ (test_shift - width / 2 * 3)%float;
               (test_shift + width / 2 * 3)%float ] /\
    Line.default_linspace
      [ (test_shift - width / 2 * 3)%float; (test_shift + width / 2 * 3)%float ]
      = Some x_zlp /\
    np_argmax (List.map y_spl x_zlp) = Some k /\
    x_zlp !! k = Some shift /\
    pymax (List.map y_spl x_zlp) = Some hgt /\
    self' = set_height hgt sample_line.
Proof.
  assert (Hrun : Line.find_zlp_max (H := sample_numerics) sample_line
                 = (set_height 10 sample_line,
                    Some (0.00025012506253108135, 10)%float)).
  { vm_compute. reflexivity. }
  destruct (find_zlp_max_window (H := sample_numerics) sample_line _ _ _ Hrun)
    as (y_spl & test_shift & mx & i & j & xi & xj & x_zlp & k & Hthm).
  exists (set_height 10 sample_line), 0.00025012506253108135%float, 10%float.
  exists y_spl, test_shift, mx, i, j, xi, xj, x_zlp, k.
  split; [exact Hrun | exact Hthm].
Defined.

(** C3 as stated fails: on the sample peak the raw maximum is at x = 0 and
    the samples above half of it are those at -0.5, 0 and 0.5, so that the
    one-sided width is 0.5 and the claimed window is the coarse peak plus
    and minus 0.75, whereas the code takes the span 1 and the coarse peak
    plus and minus 1.5. *)
Lemma refine_window_counterexample :
  ~ (forall (N : Numerics) (self : Line),
       Line.refine_window self = spec_refine_window self).
Proof.
  intros Hclaim. specialize (Hclaim sample_numerics sample_line).
  apply (f_equal (fun o => match o with
                           | Some (lo :: _) => (lo <? -1)%float
                           | _ => false
                           end)) in Hclaim.
  vm_compute in Hclaim. discriminate Hclaim.
Qed.

(** ** The order of IEEE doubles *)

Ltac cmp_cases :=
  repeat match goal with
  | |- context [Z.compare ?a ?b] => destruct (Z.compare_spec a b)
  | |- context [Pos.compare_cont Eq ?a ?b] =>
      change (Pos.compare_cont Eq a b) with (Pos.compare a b);
      destruct (Pos.compare_spec a b)
  end.

Ltac sf_cases :=
  simpl; try (intros; reflexivity || discriminate);
  cmp_cases; simpl; subst; try (intros; reflexivity || discriminate || lia).

Lemma SFleb_trans x y z :
  SFleb x y = true -> SFleb y z = true -> SFleb x z = true.
Proof.
  unfold SFleb, SFcompare.
  destruct x as [[]|[]| |[] mx ex], y as [[]|[]| |[] my ey],
           z as [[]|[]| |[] mz ez]; sf_cases.
Qed.

Lemma SFleb_total x y :
  SFleb x x = true -> SFleb y y = true -> SFleb x y = false -> SFleb y x = true.
Proof.
  unfold SFleb, SFcompare.
  destruct x as [[]|[]| |[] mx ex], y as [[]|[]| |[] my ey]; sf_cases.
Qed.

Lemma SFltb_spec x y :
  SFltb x y = SFleb x x && SFleb y y && negb (SFleb y x).
Proof.
  unfold SFleb, SFltb, SFcompare.
  destruct x as [[]|[]| |[] mx ex], y as [[]|[]| |[] my ey]; simpl;
    try reflexivity; cmp_cases; simpl; subst; try reflexivity; try lia.
Qed.

Lemma SFleb_ordered x y :
  SFleb x y = true -> SFleb x x = true /\ SFleb y y = true.
Proof.
  unfold SFleb, SFcompare.
  destruct x as [[]|[]| |[] mx ex], y as [[]|[]| |[] my ey]; simpl;
    rewrite ?Z.compare_refl, ?Pos.compare_cont_refl; simpl;
    try (intros; split; reflexivity || discriminate).
Qed.

Lemma fle_trans a b c : fle a b -> fle b c -> fle a c.
Proof. unfold fle. rewrite !FloatAxioms.leb_spec. apply SFleb_trans. Qed.

Lemma fle_ordered a b : fle a b -> fle a a /\ fle b b.
Proof. unfold fle. rewrite !FloatAxioms.leb_spec. apply SFleb_ordered. Qed.

Lemma fle_total a b : fle a a -> fle b b -> (a <=? b)%float = false -> fle b a.
Proof. unfold fle. rewrite !FloatAxioms.leb_spec. apply SFleb_total. Qed.

Lemma flt_spec a b :
  (a <? b)%float = true <-> fle a a /\ fle b b /\ (b <=? a)%float = false.
Proof.
  unfold fle. rewrite FloatAxioms.ltb_spec, !FloatAxioms.leb_spec, SFltb_spec.
  rewrite !andb_true_iff, negb_true_iff. tauto.
Qed.

Lemma flt_fle a b : (a <? b)%float = true -> fle a b.
Proof.
  intros Hlt. apply flt_spec in Hlt as (Ha & Hb & Hba).
  destruct (a <=? b)%float eqn:Hab; [exact Hab|].
  pose proof (fle_total a b Ha Hb Hab) as Hle. unfold fle in Hle. congruence.
Qed.

Lemma not_flt_fle a b :
  fle a a -> fle b b -> (a <? b)%float = false -> fle b a.
Proof.
  intros Ha Hb Hlt. destruct (b <=? a)%float eqn:Hba; [exact Hba|].
  assert (Habs : (a <? b)%float = true) by (apply flt_spec; auto).
  congruence.
Qed.

Lemma feq_refl a : fle a a -> feq a a.
Proof. intros Ha. split; exact Ha. Qed.

Lemma fle_feq_l a a' x : feq a a' -> (a <=? x)%float = (a' <=? x)%float.
Proof.
  intros [H1 H2]. apply eq_true_iff_eq. split; intros Hx.
  - exact (fle_trans _ _ _ H2 Hx).
  - exact (fle_trans _ _ _ H1 Hx).
Qed.

Lemma fle_feq_r b b' x : feq b b' -> (x <=? b)%float = (x <=? b')%float.
Proof.
  intros [H1 H2]. apply eq_true_iff_eq. split; intros Hx.
  - exact (fle_trans _ _ _ Hx H1).
  - exact (fle_trans _ _ _ Hx H2).
Qed.

Lemma in_range_spec lo hi x :
  Line.in_range lo hi x = true <-> fle lo x /\ fle x hi.
Proof. unfold Line.in_range, fle. apply andb_true_iff. Qed.

Lemma in_range_feq lo lo' hi hi' x :
  feq lo lo' -> feq hi hi' -> Line.in_range lo hi x = Line.in_range lo' hi' x.
Proof.
  intros Hlo Hhi. unfold Line.in_range.
  rewrite (fle_feq_l lo lo' x Hlo), (fle_feq_r hi hi' x Hhi). reflexivity.
Qed.

Lemma min2_spec a b : fle a a -> fle (min2 a b) a /\ (min2 a b = a \/ min2 a b = b).
Proof.
  intros Ha. unfold min2. destruct (b <? a)%float eqn:Hlt.
  - split; [apply flt_fle; exact Hlt | right; reflexivity].
  - split; [exact Ha | left; reflexivity].
Qed.

Lemma max2_spec a b : fle a a -> fle a (max2 a b) /\ (max2 a b = a \/ max2 a b = b).
Proof.
  intros Ha. unfold max2. destruct (a <? b)%float eqn:Hlt.
  - split; [apply flt_fle; exact Hlt | right; reflexivity].
  - split; [exact Ha | left; reflexivity].
Qed.

(** ** [min] and [max] of a list *)

Lemma pymin_pair a b : pymin [a; b] = Some (min2 a b).
Proof. reflexivity. Qed.

Lemma pymax_pair a b : pymax [a; b] = Some (max2 a b).
Proof. reflexivity. Qed.

Lemma fold_min_spec (l : list float) :
  forall acc, fle acc acc ->
    let m := fold_left (fun m x => if (x <? m)%float then x else m) l acc in
    fle m acc /\ (m = acc \/ In m l) /\
    (forall x, In x l -> fle x x -> fle m x).
Proof.
  induction l as [|x l IH]; intros acc Hacc; simpl.
  - split; [exact Hacc|]. split; [left; reflexivity|]. intros x [].
  - destruct (x <? acc)%float eqn:Hlt.
    + pose proof (flt_fle _ _ Hlt) as Hxa.
      destruct (fle_ordered _ _ Hxa) as [Hx _].
      destruct (IH x Hx) as (Hm & Hin & Hall).
      split; [exact (fle_trans _ _ _ Hm Hxa)|]. split.
      * right. destruct Hin as [-> | Hin]; [left; reflexivity | right; exact Hin].
      * intros y [<- | Hy] Hyo; [exact Hm | exact (Hall y Hy Hyo)].
    + destruct (IH acc Hacc) as (Hm & Hin & Hall).
      split; [exact Hm|]. split.
      * destruct Hin as [-> | Hin]; [left; reflexivity | right; right; exact Hin].
      * intros y [<- | Hy] Hyo; [|exact (Hall y Hy Hyo)].
        exact (fle_trans _ _ _ Hm (not_flt_fle _ _ Hyo Hacc Hlt)).
Qed.

Lemma fold_max_spec (l : list float) :
  forall acc, fle acc acc ->
    let m := fold_left (fun m x => if (m <? x)%float then x else m) l acc in
    fle acc m /\ (m = acc \/ In m l) /\
    (forall x, In x l -> fle x x -> fle x m).
Proof.
  induction l as [|x l IH]; intros acc Hacc; simpl.
  - split; [exact Hacc|]. split; [left; reflexivity|]. intros x [].
  - destruct (acc <? x)%float eqn:Hlt.
    + pose proof (flt_fle _ _ Hlt) as Hax.
      destruct (fle_ordered _ _ Hax) as [_ Hx].
      destruct (IH x Hx) as (Hm & Hin & Hall).
      split; [exact (fle_trans _ _ _ Hax Hm)|]. split.
      * right. destruct Hin as [-> | Hin]; [left; reflexivity | right; exact Hin].
      * intros y [<- | Hy] Hyo; [exact Hm | exact (Hall y Hy Hyo)].
    + destruct (IH acc Hacc) as (Hm & Hin & Hall).
      split; [exact Hm|]. split.
      * destruct Hin as [-> | Hin]; [left; reflexivity | right; right; exact Hin].
      * intros y [<- | Hy] Hyo; [|exact (Hall y Hy Hyo)].
        exact (fle_trans _ _ _ (not_flt_fle _ _ Hacc Hyo Hlt) Hm).
Qed.

Lemma pymin_spec v l m :
  pymin (v :: l) = Some m -> fle v v ->
  fle m m /\ In m (v :: l) /\ (forall x, In x (v :: l) -> fle x x -> fle m x).
Proof.
  simpl. intros [= <-] Hv. destruct (fold_min_spec l v Hv) as (Hm & Hin & Hall).
  split; [exact (proj1 (fle_ordered _ _ Hm))|]. split.
  - destruct Hin as [-> | Hin]; [left; reflexivity | right; exact Hin].
  - intros x [<- | Hx] Hxo; [exact Hm | exact (Hall x Hx Hxo)].
Qed.

Lemma pymax_spec v l m :
  pymax (v :: l) = Some m -> fle v v ->
  fle m m /\ In m (v :: l) /\ (forall x, In x (v :: l) -> fle x x -> fle x m).
Proof.
  simpl. intros [= <-] Hv. destruct (fold_max_spec l v Hv) as (Hm & Hin & Hall).
  split; [exact (proj2 (fle_ordered _ _ Hm))|]. split.
  - destruct Hin as [-> | Hin]; [left; reflexivity | right; exact Hin].
  - intros x [<- | Hx] Hxo; [exact Hm | exact (Hall x Hx Hxo)].
Qed.

Lemma fold_min_nan (l : list float) (v : float) :
  ~ fle v v ->
  fold_left (fun m x => if (x <? m)%float then x else m) l v = v.
Proof.
  intros Hv. induction l as [|x l IH]; simpl; [reflexivity|].
  destruct (x <? v)%float eqn:Hlt; [|exact IH].
  apply flt_spec in Hlt as (_ & Hvv & _). contradiction.
Qed.

Lemma fold_max_nan (l : list float) (v : float) :
  ~ fle v v ->
  fold_left (fun m x => if (m <? x)%float then x else m) l v = v.
Proof.
  intros Hv. induction l as [|x l IH]; simpl; [reflexivity|].
  destruct (v <? x)%float eqn:Hlt; [|exact IH].
  apply flt_spec in Hlt as (Hvv & _ & _). contradiction.
Qed.

Lemma pymin_In l m : pymin l = Some m -> In m l.
Proof.
  destruct l as [|v l]; simpl; [intros [=]|]. intros [= <-].
  generalize v. induction l as [|x l IH]; intros acc; simpl; [left; reflexivity|].
  destruct (IH (if (x <? acc)%float then x else acc)) as [Heq | Hin].
  - destruct (x <? acc)%float; [right; left | left]; exact Heq.
  - right; right; exact Hin.
Qed.

Lemma pymax_In l m : pymax l = Some m -> In m l.
Proof.
  destruct l as [|v l]; simpl; [intros [=]|]. intros [= <-].
  generalize v. induction l as [|x l IH]; intros acc; simpl; [left; reflexivity|].
  destruct (IH (if (acc <? x)%float then x else acc)) as [Heq | Hin].
  - destruct (acc <? x)%float; [right; left | left]; exact Heq.
  - right; right; exact Hin.
Qed.

(** ** A grid restricted to a range *)

Lemma filter_filter_and {A} (f g : A -> bool) (l : list A) :
  List.filter f (List.filter g l) = List.filter (fun x => g x && f x) l.
Proof.
  induction l as [|x l IH]; simpl; [reflexivity|].
  destruct (g x); simpl; [destruct (f x)|]; rewrite IH; reflexivity.
Qed.

Lemma filter_none {A} (f : A -> bool) (l : list A) :
  (forall x, In x l -> f x = false) -> List.filter f l = [].
Proof.
  induction l as [|x l IH]; simpl; intros Hall; [reflexivity|].
  rewrite (Hall x) by (left; reflexivity). apply IH.
  intros y Hy. apply Hall. right. exact Hy.
Qed.

Lemma cut_In G lo hi x : In x (cut G lo hi) <-> In x G /\ fle lo x /\ fle x hi.
Proof. unfold cut. rewrite filter_In, in_range_spec. reflexivity. Qed.

Lemma cut_feq G lo lo' hi hi' :
  feq lo lo' -> feq hi hi' -> cut G lo hi = cut G lo' hi'.
Proof.
  intros Hlo Hhi. unfold cut. apply filter_ext. intros x.
  apply in_range_feq; assumption.
Qed.

Section Grid.

Variable G : list float.
Variable m0 : float.
Hypothesis Hm0 : pymin G = Some m0.

(** The least sample is below every sample that is not a NaN. *)
Lemma grid_min_le x : fle m0 m0 -> In x G -> fle x x -> fle m0 x.
Proof.
  intros Hord Hx Hxo. destruct G as [|v l] eqn:HG; [inversion Hx|].
  destruct (v <=? v)%float eqn:Hv.
  - destruct (pymin_spec v l m0 Hm0 Hv) as (_ & _ & Hall). exact (Hall x Hx Hxo).
  - exfalso. simpl in Hm0. rewrite fold_min_nan in Hm0.
    + inversion Hm0; subst. unfold fle in Hord. congruence.
    + unfold fle. congruence.
Qed.

Lemma grid_min_In : In m0 G.
Proof. exact (pymin_In G m0 Hm0). Qed.

Lemma cut_has_min H : fle m0 H -> In m0 (cut G m0 H).
Proof.
  intros HH. apply cut_In. split; [exact grid_min_In|].
  split; [exact (proj1 (fle_ordered _ _ HH)) | exact HH].
Qed.

Lemma cut_min H a : fle m0 H -> pymin (cut G m0 H) = Some a -> feq a m0.
Proof.
  intros HH Ha. pose proof (cut_has_min H HH) as Hin.
  destruct (cut G m0 H) as [|v l] eqn:Hcut; [inversion Hin|].
  assert (Hv : fle v v).
  { assert (Hvin : In v (cut G m0 H)) by (rewrite Hcut; left; reflexivity).
    apply cut_In in Hvin as (_ & Hlo & _). exact (proj2 (fle_ordered _ _ Hlo)). }
  destruct (pymin_spec v l a Ha Hv) as (_ & Hain & Hall).
  split.
  - apply Hall; [exact Hin | exact (proj1 (fle_ordered _ _ HH))].
  - rewrite <- Hcut in Hain. apply cut_In in Hain as (_ & Hlo & _). exact Hlo.
Qed.

Lemma cut_max H M :
  fle m0 H -> pymax (cut G m0 H) = Some M -> fle m0 M /\ fle M H.
Proof.
  intros HH HM. apply pymax_In in HM.
  apply cut_In in HM as (_ & Hlo & Hhi). split; assumption.
Qed.

(** One [Line.align] on an array that is the grid, or the grid cut from
    above, leaves the grid cut from above. *)
Lemma cut_step xs a b :
  xs = G \/ (exists H, fle m0 H /\ xs = cut G m0 H) ->
  pymin xs = Some a ->
  List.filter (Line.in_range (min2 a b) (max2 a b)) xs <> [] ->
  exists H', fle m0 H' /\
    List.filter (Line.in_range (min2 a b) (max2 a b)) xs = cut G m0 H'.
Proof.
  intros [-> | (H & HH & ->)] Ha Hne.
  - rewrite Hm0 in Ha. inversion Ha; subst a; clear Ha.
    destruct (m0 <=? m0)%float eqn:Hord.
    + destruct (min2_spec m0 b Hord) as [Hlo _].
      destruct (max2_spec m0 b Hord) as [Hhi _].
      exists (max2 m0 b). split; [exact Hhi|].
      unfold cut. apply filter_ext_in. intros x Hx.
      apply eq_true_iff_eq. rewrite !in_range_spec. split.
      * intros [_ Hxh]. split; [|exact Hxh].
        apply grid_min_le; [exact Hord | exact Hx |].
        exact (proj1 (fle_ordered _ _ Hxh)).
      * intros [Hmx Hxh]. split; [|exact Hxh].
        exact (fle_trans _ _ _ Hlo Hmx).
    + exfalso. apply Hne. apply filter_none. intros x _.
      destruct (Line.in_range (min2 m0 b) (max2 m0 b) x) eqn:Hin; [|reflexivity].
      apply in_range_spec in Hin as [Hlo _].
      assert (Hmin : min2 m0 b = m0).
      { unfold min2. destruct (b <? m0)%float eqn:Hlt; [|reflexivity].
        apply flt_spec in Hlt as (_ & Hmm & _). unfold fle in Hmm. congruence. }
      rewrite Hmin in Hlo. apply fle_ordered in Hlo as [Hmm _].
      unfold fle in Hmm. congruence.
  - pose proof (cut_min H a HH Ha) as [Ham Hma].
    pose proof (proj1 (fle_ordered _ _ Ham)) as Haord.
    destruct (min2_spec a b Haord) as [Hlo _].
    destruct (max2_spec a b Haord) as [Hhi _].
    set (lo' := min2 a b) in *. set (hi' := max2 a b) in *.
    pose proof (proj2 (fle_ordered _ _ Hhi)) as Hhiord.
    pose proof (proj2 (fle_ordered _ _ HH)) as HHord.
    exists (if (hi' <=? H)%float then hi' else H). split.
    + destruct (hi' <=? H)%float; [exact (fle_trans _ _ _ Hma Hhi) | exact HH].
    + unfold cut. rewrite filter_filter_and. apply filter_ext_in. intros x Hx.
      apply eq_true_iff_eq. rewrite andb_true_iff, !in_range_spec. split.
      * intros [[Hmx HxH] [_ Hxhi]]. split; [exact Hmx|].
        destruct (hi' <=? H)%float; assumption.
      * intros [Hmx Hxh]. destruct (hi' <=? H)%float eqn:Hcmp.
        -- repeat split; try assumption.
           ++ exact (fle_trans _ _ _ Hxh Hcmp).
           ++ exact (fle_trans _ _ _ Hlo (fle_trans _ _ _ Ham Hmx)).
        -- pose proof (fle_total _ _ Hhiord HHord Hcmp) as HHhi.
           repeat split; try assumption.
           ++ exact (fle_trans _ _ _ Hlo (fle_trans _ _ _ Ham Hmx)).
           ++ exact (fle_trans _ _ _ Hxh HHhi).
Qed.

(** Slicing a grid cut from above to a range that starts at its least
    sample and ends below the cut gives the grid restricted to the range. *)
Lemma final_slice L Hf H :
  feq L m0 -> fle m0 Hf -> fle Hf H ->
  List.filter (Line.in_range (min2 L Hf) (max2 L Hf)) (cut G m0 H) = cut G L Hf.
Proof.
  intros [HLm HmL] HmH HfH.
  pose proof (proj1 (fle_ordered _ _ HLm)) as HLord.
  pose proof (proj2 (fle_ordered _ _ HmH)) as Hford.
  pose proof (fle_trans _ _ _ HLm HmH) as HLHf.
  assert (Hlo : min2 L Hf = L).
  { unfold min2. destruct (Hf <? L)%float eqn:Hlt; [|reflexivity].
    apply flt_spec in Hlt as (_ & _ & Hn). unfold fle in HLHf. congruence. }
  assert (Hhi : feq (max2 L Hf) Hf).
  { unfold max2. destruct (L <? Hf)%float eqn:Hlt; [apply feq_refl; exact Hford|].
    split; [exact HLHf | exact (not_flt_fle _ _ HLord Hford Hlt)]. }
  rewrite Hlo. unfold cut. rewrite filter_filter_and. apply filter_ext_in.
  intros x Hx. rewrite (in_range_feq L L (max2 L Hf) Hf x (feq_refl L HLord) Hhi).
  destruct (Line.in_range L Hf x) eqn:Hin; [|apply andb_false_r].
  rewrite andb_true_r. apply in_range_spec in Hin as [HLx HxHf].
  apply in_range_spec. split.
  - exact (fle_trans _ _ _ HmL HLx).
  - exact (fle_trans _ _ _ HxHf HfH).
Qed.

End Grid.

Lemma find_zlp_max_state `{Numerics} (self self' : Line) (r : float * float) :
  Line.find_zlp_max self = (self', Some r) -> self' = set_height r.2 self.
Proof.
  unfold Line.find_zlp_max. intros Hrun.
  run_inv Hrun. inversion Hrun0; subst; clear Hrun0.
  run_inv Hrun. run_inv Hrun. run_inv Hrun. run_inv Hrun. run_inv Hrun.
  run_inv Hrun. run_inv Hrun. inversion Hrun6; subst; clear Hrun6.
  inversion Hrun; subst; clear Hrun. reflexivity.
Qed.

Lemma line_align_x `{Numerics} (l l' : Line) (d : list float * list float) :
  Line.align l = (l', Some d) ->
  exists a b,
    pymin (data l).1 = Some a /\
    data l' = d /\
    d.1 = List.filter (Line.in_range (min2 a b) (max2 a b)) (data l).1.
Proof.
  unfold Line.align. intros Hrun.
  run_inv Hrun. destruct a as [shift hgt].
  apply find_zlp_max_state in Hrun0. simpl in Hrun0. subst s.
  run_inv Hrun. inversion Hrun0; subst; clear Hrun0.
  run_inv Hrun. run_inv Hrun. inversion Hrun1; subst; clear Hrun1.
  run_inv Hrun. run_inv Hrun. run_inv Hrun. run_inv Hrun.
  inversion Hrun4; subst; clear Hrun4.
  inversion Hrun; subst; clear Hrun.
  simpl in *. exists a0, (a1 - shift)%float.
  split; [exact Hrun1|]. split; [reflexivity|].
  exact (slice_data_x _ _ _ _ d (pymin_pair _ _) (pymax_pair _ _) Hrun3).
Qed.

Lemma pymin_Some_nonempty l m : pymin l = Some m -> l <> [].
Proof. destruct l; [intros [=] | discriminate]. Qed.

Lemma align_step_inv `{Numerics} acc e (s s' : heap * Lines) acc' :
  Lines.align_step acc e s = (s', Some acc') ->
  exists l l' a b mn mx,
    s.1 !! e = Some l /\
    pymin (data l).1 = Some a /\
    (data l').1 = List.filter (Line.in_range (min2 a b) (max2 a b)) (data l).1 /\
    s'.1 = <[e := l']> s.1 /\
    pymin (data l').1 = Some mn /\ pymax (data l').1 = Some mx /\
    acc' = (acc.1 ++ [mn], acc.2 ++ [mx]).
Proof.
  unfold Lines.align_step. intros Hrun.
  run_inv Hrun. apply at_line_inv in Hrun0 as (l & l1 & Hl & Halign & ->).
  run_inv Hrun. apply at_line_inv in Hrun0 as (l1' & l2 & Hl1 & Hset & ->).
  run_inv Hrun. apply at_line_inv in Hrun0 as (l2' & l3 & Hl2 & Hget & ->).
  run_inv Hrun. run_inv Hrun.
  run_inv Hrun. inversion Hrun2; subst; clear Hrun2.
  run_inv Hrun. inversion Hrun2; subst; clear Hrun2.
  inversion Hrun; subst; clear Hrun.
  simpl in *. rewrite lookup_insert_eq in Hl1. inversion Hl1; subst l1'; clear Hl1.
  inversion Hset; subst l2; clear Hset.
  rewrite lookup_insert_eq in Hl2. inversion Hl2; subst l2'; clear Hl2.
  inversion Hget; subst; clear Hget.
  apply line_align_x in Halign as (a' & b & Ha & Hd & Hx).
  exists l, (set_data a l1), a', b. eexists _, _.
  split; [exact Hl|]. split; [exact Ha|]. split; [exact Hx|].
  split; [rewrite !insert_insert_eq; reflexivity|].
  split; [eassumption|]. split; [eassumption | reflexivity].
Qed.

Lemma reslice_step_inv (xrange : list float) e (s s' : heap * Lines) :
  Lines.reslice_step xrange tt e s = (s', Some tt) ->
  exists l d,
    s.1 !! e = Some l /\ Line.slice_data l xrange = Some d /\
    s'.1 = <[e := set_data d l]> s.1.
Proof.
  unfold Lines.reslice_step. intros Hrun.
  apply at_line_inv in Hrun as (l & l' & Hl & Hc & ->).
  destruct (Line.slice_data l xrange) as [d|] eqn:Hd; inversion Hc; subst.
  exists l, d. split; [exact Hl|]. split; [exact Hd | reflexivity].
Qed.

(** ** The two loops of Lines.align *)

Section AlignGrid.

Context `{Numerics}.
Variable G : list float.
Variable m0 : float.
Hypothesis Hm0 : pymin G = Some m0.
Variable U : list loc.

Lemma align_loop_grid (es : list loc) :
  forall acc (s s' : heap * Lines) acc' (D : list loc),
    for_each Lines.align_step acc es s = (s', Some acc') ->
    (forall r, In r es -> In r U) ->
    (forall r, In r U -> exists l, s.1 !! r = Some l /\ on_grid G m0 (data l).1) ->
    (forall r, In r D -> aligned_at G m0 s.1 acc.2 r) ->
    (forall mn, In mn acc.1 -> feq mn m0) ->
    (forall mx, In mx acc.2 -> fle m0 mx) ->
    (forall r, In r D \/ In r es -> aligned_at G m0 s'.1 acc'.2 r) /\
    (forall mn, In mn acc'.1 -> feq mn m0) /\
    (forall mx, In mx acc'.2 -> fle m0 mx).
Proof.
  induction es as [|e es IH]; intros acc s s' acc' D Hrun HU Hgrid Hdone Hmins Hmaxs.
  - simpl in Hrun. inversion Hrun; subst. split; [|split; assumption].
    intros r [Hr | []]. exact (Hdone r Hr).
  - simpl in Hrun. run_inv Hrun.
    apply align_step_inv in Hrun0
      as (l & l' & a' & b & mn & mx & Hl & Ha & Hx & Hheap & Hmn & Hmx & ->).
    destruct (Hgrid e (HU e (or_introl eq_refl))) as (l0 & Hl0 & Hon).
    rewrite Hl in Hl0. inversion Hl0; subst l0; clear Hl0.
    destruct (cut_step G m0 Hm0 (data l).1 a' b Hon Ha) as (Hc & HHc & Hcut).
    { rewrite <- Hx. exact (pymin_Some_nonempty _ _ Hmn). }
    rewrite Hcut in Hx.
    assert (Hmn' : feq mn m0).
    { rewrite Hx in Hmn. exact (cut_min G m0 Hm0 Hc mn HHc Hmn). }
    assert (Hmx' : fle m0 mx).
    { rewrite Hx in Hmx. exact (proj1 (cut_max G m0 Hc mx HHc Hmx)). }
    destruct (IH (acc.1 ++ [mn], acc.2 ++ [mx]) s0 s' acc' (e :: D) Hrun)
      as (Hpost & Hmins' & Hmaxs').
    + intros r Hr. apply HU. right. exact Hr.
    + intros r Hr. rewrite Hheap. destruct (decide (r = e)) as [->|Hne].
      * exists l'. rewrite lookup_insert_eq. split; [reflexivity|].
        right. exists Hc. split; assumption.
      * rewrite lookup_insert_ne by congruence. exact (Hgrid r Hr).
    + intros r Hr. simpl. destruct (decide (r = e)) as [->|Hne].
      * exists l', Hc, mx. rewrite Hheap, lookup_insert_eq.
        split; [reflexivity|]. split; [exact HHc|]. split; [exact Hx|].
        split; [exact Hmx|]. apply in_or_app. right. left. reflexivity.
      * destruct Hr as [Hr | Hr]; [congruence|].
        destruct (Hdone r Hr) as (lr & Hr' & mr & Hlr & HHr & Hxr & Hmr & Hin).
        exists lr, Hr', mr. rewrite Hheap, lookup_insert_ne by congruence.
        split; [exact Hlr|]. split; [exact HHr|]. split; [exact Hxr|].
        split; [exact Hmr|]. apply in_or_app. left. exact Hin.
    + simpl. intros v Hv. apply in_app_or in Hv as [Hv | [<- | []]];
        [exact (Hmins v Hv) | exact Hmn'].
    + simpl. intros v Hv. apply in_app_or in Hv as [Hv | [<- | []]];
        [exact (Hmaxs v Hv) | exact Hmx'].
    + split; [|split; assumption].
      intros r [Hr | [<- | Hr]].
      * apply Hpost. left. right. exact Hr.
      * apply Hpost. left. left. reflexivity.
      * apply Hpost. right. exact Hr.
Qed.

Variable L Hf : float.
Hypothesis HL : feq L m0.
Hypothesis HHf : fle m0 Hf.

Lemma reslice_loop_grid (es : list loc) :
  forall (s s' : heap * Lines) (D : list loc),
    for_each (Lines.reslice_step [L; Hf]) tt es s = (s', Some tt) ->
    (forall r, In r es -> In r U) ->
    (forall r, In r U -> above_cut G m0 Hf s.1 r) ->
    (forall r, In r D -> resliced G L Hf s.1 r) ->
    (forall r, In r D \/ In r es -> resliced G L Hf s'.1 r).
Proof.
  induction es as [|e es IH]; intros s s' D Hrun HU Habove Hdone.
  - simpl in Hrun. inversion Hrun; subst. intros r [Hr | []]. exact (Hdone r Hr).
  - simpl in Hrun. run_inv Hrun. destruct a.
    apply reslice_step_inv in Hrun0 as (l & d & Hl & Hd & Hheap).
    destruct (Habove e (HU e (or_introl eq_refl))) as (l0 & Hc & Hl0 & HHc & Hx).
    rewrite Hl in Hl0. inversion Hl0; subst l0; clear Hl0.
    pose proof (slice_data_x l [L; Hf] _ _ d (pymin_pair _ _) (pymax_pair _ _) Hd)
      as Hdx.
    rewrite Hx, (final_slice G m0 L Hf Hc HL HHf HHc) in Hdx.
    assert (Hnew : resliced G L Hf s0.1 e).
    { exists (set_data d l). rewrite Hheap, lookup_insert_eq.
      split; [reflexivity | exact Hdx]. }
    assert (Hstep : forall r, r <> e -> s0.1 !! r = s.1 !! r).
    { intros r Hne. rewrite Hheap. apply lookup_insert_ne. congruence. }
    pose proof (IH s0 s' (e :: D) Hrun) as Hpost.
    intros r Hr. apply Hpost.
    + intros r' Hr'. apply HU. right. exact Hr'.
    + intros r' Hr'. destruct (decide (r' = e)) as [->|Hne].
      * destruct Hnew as (ln & Hln & Hxn). exists ln, Hf.
        split; [exact Hln|]. split; [exact (proj2 (fle_ordered _ _ HHf))|].
        rewrite Hxn. apply cut_feq; [exact HL|].
        apply feq_refl. exact (proj2 (fle_ordered _ _ HHf)).
      * destruct (Habove r' Hr') as (lr & Hcr & Hlr & HHr & Hxr).
        exists lr, Hcr. rewrite (Hstep r' Hne). repeat split; assumption.
    + intros r' Hr'. destruct (decide (r' = e)) as [->|Hne]; [exact Hnew|].
      destruct Hr' as [Hr' | Hr']; [congruence|].
      destruct (Hdone r' Hr') as (lr & Hlr & Hxr).
      exists lr. rewrite (Hstep r' Hne). split; assumption.
    + destruct Hr as [Hr | [<- | Hr]].
      * left. right. exact Hr.
      * left. left. reflexivity.
      * right. exact Hr.
Qed.

End AlignGrid.

(** C7. When the elements of a collection share their x array [x0], a
    call of [Lines.align] that returns leaves in every element the same x
    array: the samples of [x0] within [[lo, hi]], where [lo] is the greatest
    of the minima and [hi] the least of the maxima that the first loop
    recorded after aligning each element. *)
Theorem align_common_grid `{Numerics} (s s' : heap * Lines) (x0 : list float) :
  (forall r, r ∈ elements s.2 ->
     exists l, s.1 !! r = Some l /\ (data l).1 = x0) ->
  Lines.align s = (s', Some tt) ->
  exists s1 xmin_list xmax_list lo hi,
    for_each Lines.align_step ([], []) (elements s.2) s
      = (s1, Some (xmin_list, xmax_list)) /\
    pymax xmin_list = Some lo /\ pymin xmax_list = Some hi /\
    elements s'.2 = elements s.2 /\
    forall r, r ∈ elements s'.2 ->
      exists l', s'.1 !! r = Some l' /\
                 (data l').1 = List.filter (Line.in_range lo hi) x0.
Proof.
  intros Hshared Halign.
  destruct (align_self s s' Halign) as [Helems _].
  unfold Lines.align in Halign.
  run_inv Halign. inversion Hrun; subst; clear Hrun.
  run_inv Halign. destruct a as [mins maxs]. rename Hrun into Hpass1.
  run_inv Halign. rename Hrun into HL. rename a into L.
  run_inv Halign. rename Hrun into HHf. rename a into Hf.
  run_inv Halign. inversion Hrun; subst; clear Hrun.
  rename Halign into Hpass2.
  destruct (align_loop_self _ _ _ _ _ Hpass1) as [Helems1 _].
  rewrite Helems1 in Hpass2.
  exists s0, mins, maxs, L, Hf.
  split; [exact Hpass1|]. split; [exact HL|]. split; [exact HHf|].
  split; [exact Helems|]. rewrite Helems.
  (* the least sample of the grid *)
  assert (Hm0 : exists m0, pymin x0 = Some m0).
  { destruct (elements s.2) as [|e0 es] eqn:Hes.
    - simpl in Hpass1. inversion Hpass1; subst. discriminate HL.
    - pose proof Hpass1 as Hfirst. simpl in Hfirst.
      apply bind_inv in Hfirst as (s1 & acc1 & Hfirst & _).
      apply align_step_inv in Hfirst as (l & _ & a & _ & _ & _ & Hl & Ha & _).
      destruct (Hshared e0) as (l0 & Hl0 & Hx0).
      { apply list_elem_of_In. left. reflexivity. }
      rewrite Hl in Hl0. inversion Hl0; subst l0. rewrite Hx0 in Ha.
      exists a. exact Ha. }
  destruct Hm0 as [m0 Hm0].
  destruct (align_loop_grid x0 m0 Hm0 (elements s.2) (elements s.2)
              ([], []) s s0 (mins, maxs) [] Hpass1) as (Haligned & Hmins & Hmaxs).
  { auto. }
  { intros r Hr. destruct (Hshared r) as (l & Hl & Hx);
      [apply list_elem_of_In; exact Hr|].
    exists l. split; [exact Hl | left; exact Hx]. }
  { intros r []. }
  { intros mn []. }
  { intros mx []. }
  simpl in Haligned, Hmins, Hmaxs.
  assert (HLm : feq L m0) by exact (Hmins L (pymax_In _ _ HL)).
  assert (HmH : fle m0 Hf) by exact (Hmaxs Hf (pymin_In _ _ HHf)).
  assert (Hleast : forall mx, In mx maxs -> fle Hf mx).
  { destruct maxs as [|v maxs']; [discriminate HHf|].
    assert (Hv : fle v v).
    { exact (proj2 (fle_ordered _ _ (Hmaxs v (or_introl eq_refl)))). }
    destruct (pymin_spec v maxs' Hf HHf Hv) as (_ & _ & Hall).
    intros mx Hmx. apply Hall; [exact Hmx|].
    exact (proj2 (fle_ordered _ _ (Hmaxs mx Hmx))). }
  pose proof (reslice_loop_grid x0 m0 (elements s.2) L Hf HLm HmH
                (elements s.2) s0 s' [] Hpass2) as Hfinal.
  intros r Hr. apply list_elem_of_In in Hr.
  destruct (Hfinal (fun r Hr => Hr)) with (r := r) as (l' & Hl' & Hx').
  - intros r' Hr'.
    destruct (Haligned r' (or_intror Hr')) as (l & Hc & mx & Hl & HHc & Hx & Hmx & Hin).
    exists l, Hc. split; [exact Hl|]. split; [|exact Hx].
    rewrite Hx in Hmx.
    exact (fle_trans _ _ _ (Hleast mx Hin) (proj2 (cut_max x0 m0 Hc mx HHc Hmx))).
  - intros r' [].
  - right. exact Hr.
  - exists l'. split; [exact Hl' | exact Hx'].
Qed.

Lemma align_common_grid_witness :
  exists s' s1 xmin_list xmax_list lo hi,
    Lines.align (H := sample_numerics) (sample_heap, sample_lines)
      = (s', Some tt) /\
    for_each (Lines.align_step (H := sample_numerics)) ([], [])
      (elements sample_lines) (sample_heap, sample_lines)
      = (s1, Some (xmin_list, xmax_list)) /\
    pymax xmin_list = Some lo /\ pymin xmax_list = Some hi /\
    elements s'.2 = elements sample_lines /\
    forall r, r ∈ elements s'.2 ->
      exists l', s'.1 !! r = Some l' /\
                 (data l').1 = List.filter (Line.in_range lo hi) sample_x.
Proof.
  destruct (Lines.align (H := sample_numerics) (sample_heap, sample_lines))
    as [s' [[]|]] eqn:Hrun; [|vm_compute in Hrun; discriminate Hrun].
  exists s'.
  destruct (align_common_grid (H := sample_numerics)
              (sample_heap, sample_lines) s' sample_x)
    as (s1 & xmin_list & xmax_list & lo & hi & Hthm).
  - intros r Hr. apply list_elem_of_In in Hr. simpl in Hr.
    destruct Hr as [<- | [<- | [<- | []]]]; eexists; split; reflexivity.
  - exact Hrun.
  - exists s1, xmin_list, xmax_list, lo, hi. split; [reflexivity | exact Hthm].
Defined.

(** The same step with chosen names. *)
Tactic Notation "run_step" hyp(H) "as" ident(s1) ident(a) ident(H1) :=
  apply bind_inv in H as (s1 & a & H1 & H);
  try (apply try_pure_inv in H1 as [-> H1]).

(** ** Lines.subtract on a collection of one element *)

Lemma subtract_step_substrate `{Numerics} (sub e : loc) (display_range : list float)
    (s s' : heap * Lines) (i' : nat) :
  sub <> e ->
  Lines.subtract_step (Some [sub]) display_range 0 e s = (s', Some i') ->
  exists l shift0 height0,
    s.1 !! sub = Some l /\
    Line.find_zlp_max l = (set_height height0 l, Some (shift0, height0)) /\
    s'.1 !! sub = Some (set_height height0 l).
Proof.
  intros Hne. unfold Lines.subtract_step. intros Hrun.
  run_step Hrun as s1 subs Hsubs. inversion Hsubs; subst subs; clear Hsubs.
  run_step Hrun as s2 r Hr. inversion Hr; subst r; clear Hr.
  run_step Hrun as s3 l Hread.
  apply at_line_inv in Hread as (l0 & l1 & Hl & Hget & ->).
  inversion Hget; subst; clear Hget.
  run_step Hrun as s4 y_sub Hspl.
  run_step Hrun as s5 p0 Hzlp. destruct p0 as [shift0 height0].
  apply at_line_inv in Hzlp as (l' & l2 & Hl' & Hzlp & ->).
  simpl in Hl'. rewrite lookup_insert_eq in Hl'. inversion Hl'; subst l'; clear Hl'.
  pose proof (find_zlp_max_state _ _ _ Hzlp) as Hl2. simpl in Hl2. subst l2.
  run_step Hrun as s6 le Hreade.
  apply at_line_inv in Hreade as (le0 & le1 & _ & _ & ->).
  run_step Hrun as s7 y_data Hspl1.
  run_step Hrun as s8 p1 Hzlp1.
  apply at_line_inv in Hzlp1 as (le2 & le3 & _ & _ & ->).
  destruct p1 as [shift1 height1].
  run_step Hrun as s9 x_data Hlin.
  run_step Hrun as s10 le4 Hreade2.
  apply at_line_inv in Hreade2 as (le5 & le6 & _ & _ & ->).
  run_step Hrun as s11 width Hw.
  run_step Hrun as s12 diff Hdiff.
  run_step Hrun as s13 u Hset.
  apply at_line_inv in Hset as (le7 & le8 & _ & _ & ->).
  inversion Hrun; subst; clear Hrun.
  exists l, shift0, height0. split; [exact Hl|]. split; [exact Hzlp|].
  simpl. rewrite !(lookup_insert_ne _ e sub) by congruence.
  rewrite lookup_insert_eq. reflexivity.
Qed.

(** X1. When the collection has one element and the substrate is another
    object, a call of [subtract] that completes has run [find_zlp_max] on the
    substrate and so has stored the peak height in the substrate object. *)
Theorem subtract_single_stores_height `{Numerics} (sub e : loc)
    (display_range : list float) (s s' : heap * Lines) :
  elements s.2 = [e] -> sub <> e ->
  Lines.subtract [sub] display_range s = (s', Some SubtractDone) ->
  exists l shift0 height0,
    s.1 !! sub = Some l /\
    Line.find_zlp_max l = (set_height height0 l, Some (shift0, height0)) /\
    s'.1 !! sub = Some (set_height height0 l).
Proof.
  intros Hes Hne. unfold Lines.subtract. intros Hrun.
  run_step Hrun as s1 self Hself. inversion Hself; subst; clear Hself.
  rewrite Hes in Hrun. simpl in Hrun.
  run_step Hrun as s2 i' Hloop. run_step Hloop as s3 i1 Hstep.
  inversion Hloop; subst; clear Hloop. inversion Hrun; subst; clear Hrun.
  exact (subtract_step_substrate sub e display_range _ _ _ Hne Hstep).
Qed.

Lemma subtract_single_stores_height_witness :
  exists s' l shift0 height0,
    Lines.subtract (H := sample_numerics) [3%nat] [-1; 1]%float
      (sample_heap, mkLines [0%nat] [] [] []) = (s', Some SubtractDone) /\
    sample_heap !! 3%nat = Some l /\
    Line.find_zlp_max (H := sample_numerics) l
      = (set_height height0 l, Some (shift0, height0)) /\
    s'.1 !! 3%nat = Some (set_height height0 l).
Proof.
  destruct (Lines.subtract (H := sample_numerics) [3%nat] [-1; 1]%float
              (sample_heap, mkLines [0%nat] [] [] []))
    as [s' [[]|]] eqn:Hrun;
    [| vm_compute in Hrun; discriminate Hrun | vm_compute in Hrun; discriminate Hrun].
  destruct (subtract_single_stores_height (H := sample_numerics) 3%nat 0%nat
              [-1; 1]%float (sample_heap, mkLines [0%nat] [] [] []) s'
              eq_refl ltac:(discriminate) Hrun)
    as (l & shift0 & height0 & Hthm).
  exists s', l, shift0, height0. split; [reflexivity | exact Hthm].
Defined.

(** ** A one-to-one list of substrates *)

Lemma subtract_one_to_one_witness :
  Lines.subtract (H := sample_numerics) [3; 3; 3]%nat [-1; 1]%float
    (sample_heap, sample_lines) = ((sample_heap, sample_lines), None).
Proof.
  apply (subtract_one_to_one_raises (H := sample_numerics) [3; 3; 3]%nat
           [-1; 1]%float (sample_heap, sample_lines)).
  - reflexivity.
  - simpl. lia.
Defined.

(** ** Line.slice_data and Line.align on the lengths *)

Lemma select_y_length (keep : float -> bool) (xs ys d2 : list float) :
  Line.select_y keep xs ys = Some d2 ->
  length d2 = length (List.filter keep xs).
Proof.
  revert ys d2. induction xs as [|x xs IH]; intros ys d2; simpl.
  - intros [= <-]. reflexivity.
  - destruct (keep x).
    + destruct ys as [|y ys]; [intros [=]|].
      destruct (Line.select_y keep xs ys) as [d|] eqn:Hd; simpl; [|intros [=]].
      intros [= <-]. simpl. f_equal. exact (IH ys d Hd).
    + apply IH.
Qed.

Lemma select_y_all (keep : float -> bool) (xs ys : list float) :
  (forall x, In x xs -> keep x = true) -> length xs = length ys ->
  Line.select_y keep xs ys = Some ys /\ List.filter keep xs = xs.
Proof.
  revert ys. induction xs as [|x xs IH]; intros ys Hall Hlen; simpl.
  - destruct ys; [split; reflexivity | discriminate Hlen].
  - rewrite (Hall x) by (left; reflexivity).
    destruct ys as [|y ys]; [discriminate Hlen|].
    destruct (IH ys) as [Hsel Hfil].
    + intros v Hv. apply Hall. right. exact Hv.
    + simpl in Hlen. lia.
    + rewrite Hsel, Hfil. split; reflexivity.
Qed.

Lemma slice_data_lengths (self : Line) (xrange : list float) d :
  Line.slice_data self xrange = Some d ->
  length d.2 = length d.1 /\ (length d.1 <= length (data self).1)%nat.
Proof.
  unfold Line.slice_data. destruct (data self).1 as [|x xs] eqn:Hx.
  - intros Heq. inversion Heq; subst. split; [reflexivity | simpl; lia].
  - remember (x :: xs) as X eqn:HX. clear HX.
    destruct (pymin xrange) as [lo|]; simpl; [|intros [=]].
    destruct (pymax xrange) as [hi|]; simpl; [|intros [=]].
    destruct (Line.select_y _ _ _) as [d2|] eqn:Hd2; simpl; [|intros [=]].
    intros Heq. inversion Heq; subst. simpl. split.
    + exact (select_y_length _ _ _ _ Hd2).
    + apply filter_length_le.
Qed.

Lemma max2_ge_r a b : fle a a -> fle b b -> fle b (max2 a b).
Proof.
  intros Ha Hb. unfold max2. destruct (a <? b)%float eqn:Hlt; [exact Hb|].
  exact (not_flt_fle _ _ Ha Hb Hlt).
Qed.

(** X3. Slicing a Spectrum whose x values hold no NaN and whose arrays have
    the same length to its own range [[min(x), max(x)]] returns its data
    unchanged. *)
Theorem slice_data_full_range (self : Line) (lo hi : float) :
  pymin (data self).1 = Some lo -> pymax (data self).1 = Some hi ->
  (forall x, In x (data self).1 -> fle x x) ->
  length (data self).1 = length (data self).2 ->
  Line.slice_data self [lo; hi] = Some (data self).
Proof.
  intros Hlo Hhi Hord Hlen. unfold Line.slice_data.
  destruct (data self) as [xs ys] eqn:Hdata. cbn [fst snd] in *.
  destruct xs as [|x xs]; [discriminate Hlo|].
  pose proof (Hord x (or_introl eq_refl)) as Hx.
  destruct (pymin_spec x xs lo Hlo Hx) as (Hloo & _ & Hmin).
  destruct (pymax_spec x xs hi Hhi Hx) as (Hhio & _ & Hmax).
  destruct (select_y_all (Line.in_range (min2 lo hi) (max2 lo hi)) (x :: xs) ys)
    as [Hsel Hfil].
  - intros v Hv. apply in_range_spec. split.
    + exact (fle_trans _ _ _ (proj1 (min2_spec lo hi Hloo)) (Hmin v Hv (Hord v Hv))).
    + exact (fle_trans _ _ _ (Hmax v Hv (Hord v Hv)) (max2_ge_r lo hi Hloo Hhio)).
  - exact Hlen.
  - rewrite pymin_pair, pymax_pair. cbn [mbind option_bind].
    rewrite Hsel. cbn [mbind option_bind]. rewrite Hfil. reflexivity.
Qed.

Lemma slice_data_full_range_witness :
  Line.slice_data sample_line [-2; 2]%float = Some (data sample_line).
Proof.
  apply (slice_data_full_range sample_line (-2)%float 2%float).
  - reflexivity.
  - reflexivity.
  - intros x Hx. simpl in Hx.
    repeat (destruct Hx as [<- | Hx]; [reflexivity|]). destruct Hx.
  - reflexivity.
Defined.

(** X4. [Line.align] returns the data it stores and keeps the name; the
    new x array is a filter of the old one by a range, so it is not longer,
    and the new y array has its length. *)
Theorem line_align_shrinks `{Numerics} (l l' : Line) (d : list float * list float) :
  Line.align l = (l', Some d) ->
  data l' = d /\ name l' = name l /\
  (exists lo hi, d.1 = List.filter (Line.in_range lo hi) (data l).1) /\
  (length d.1 <= length (data l).1)%nat /\ length d.2 = length d.1.
Proof.
  intros Hrun. pose proof Hrun as Hrun'.
  apply line_align_x in Hrun' as (a & b & _ & Hd & Hx).
  split; [exact Hd|].
  unfold Line.align in Hrun.
  apply bind_inv in Hrun as (s1 & p & Hzlp & Hrun). destruct p as [shift hgt].
  apply find_zlp_max_state in Hzlp. simpl in Hzlp. subst s1.
  run_inv Hrun. inversion Hrun0; subst; clear Hrun0.
  run_inv Hrun. run_inv Hrun. inversion Hrun1; subst; clear Hrun1.
  run_inv Hrun. run_inv Hrun. run_inv Hrun. run_inv Hrun.
  inversion Hrun4; subst; clear Hrun4. inversion Hrun; subst; clear Hrun.
  apply slice_data_lengths in Hrun3 as [Hlen Hle]. simpl in *.
  split; [reflexivity|]. split; [eexists _, _; exact Hx|].
  split; [exact Hle | exact Hlen].
Qed.

Lemma line_align_shrinks_witness :
  exists l' d,
    Line.align (H := sample_numerics) sample_line = (l', Some d) /\
    data l' = d /\ name l' = name sample_line /\
    (exists lo hi, d.1 = List.filter (Line.in_range lo hi) (data sample_line).1) /\
    (length d.1 <= length (data sample_line).1)%nat /\ length d.2 = length d.1.
Proof.
  destruct (Line.align (H := sample_numerics) sample_line) as [l' [d|]] eqn:Hrun;
    [|vm_compute in Hrun; discriminate Hrun].
  exists l', d. split; [reflexivity|].
  exact (line_align_shrinks (H := sample_numerics) sample_line l' d Hrun).
Defined.

(** ** Lines.add_lines and Lines.del_lines on lists of lines *)

Lemma add_lines_fields (new_lines : list loc) :
  forall c,
    heights (Lines.add_lines new_lines c) = heights c /\
    PCA_coefficients (Lines.add_lines new_lines c) = PCA_coefficients c /\
    PCA_components (Lines.add_lines new_lines c) = PCA_components c.
Proof.
  unfold Lines.add_lines.
  induction new_lines as [|r new_lines IH]; intros c; simpl; [auto|].
  destruct (decide (r ∈ elements c)); [apply IH|].
  destruct (IH (set_elements (elements c ++ [r]) c)) as (H1 & H2 & H3).
  rewrite H1, H2, H3. auto.
Qed.

Lemma add_lines_elements (new_lines : list loc) :
  forall c,
    exists added,
      elements (Lines.add_lines new_lines c) = elements c ++ added /\
      (forall r, r ∈ added -> r ∈ new_lines /\ r ∉ elements c) /\
      (forall r, r ∈ new_lines -> r ∈ elements c ++ added) /\
      NoDup added.
Proof.
  unfold Lines.add_lines.
  induction new_lines as [|r new_lines IH]; intros c; simpl.
  - exists []. rewrite app_nil_r. split; [reflexivity|].
    split; [intros r Hr; inversion Hr|]. split; [intros r Hr; inversion Hr|].
    constructor.
  - destruct (decide (r ∈ elements c)) as [Hin|Hnin].
    + destruct (IH c) as (added & Hel & Hadded & Hall & Hnd).
      exists added. split; [exact Hel|]. split.
      * intros r' Hr'. destruct (Hadded r' Hr') as [Hn Hc].
        split; [right; exact Hn | exact Hc].
      * split; [|exact Hnd]. intros r' Hr'.
        apply elem_of_cons in Hr' as [-> | Hr'].
        -- apply elem_of_app. left. exact Hin.
        -- exact (Hall r' Hr').
    + destruct (IH (set_elements (elements c ++ [r]) c))
        as (added & Hel & Hadded & Hall & Hnd).
      simpl in Hel, Hadded, Hall.
      exists (r :: added). split; [rewrite Hel, <- app_assoc; reflexivity|].
      split; [|split].
      * intros r' Hr'. apply elem_of_cons in Hr' as [-> | Hr'].
        -- split; [left | exact Hnin].
        -- destruct (Hadded r' Hr') as [Hn Hc]. split; [right; exact Hn|].
           intros Hc'. apply Hc. apply elem_of_app. left. exact Hc'.
      * intros r' Hr'. apply elem_of_cons in Hr' as [-> | Hr'].
        -- apply elem_of_app. right. left.
        -- specialize (Hall r' Hr'). rewrite <- app_assoc in Hall. exact Hall.
      * constructor; [|exact Hnd]. intros Hr.
        destruct (Hadded r Hr) as [_ Hc]. apply Hc.
        apply elem_of_app. right. left.
Qed.

(** X5. [add_lines] keeps the stored elements as a prefix, in their order,
    and appends each new object once: every listed line is stored
    afterwards, a collection without repeated objects stays so, and the
    other fields are kept. *)
Theorem add_lines_appends_once (new_lines : list loc) (c : Lines) :
  NoDup (elements c) ->
  let c' := Lines.add_lines new_lines c in
  (exists added, elements c' = elements c ++ added /\
                 forall r, r ∈ added -> r ∈ new_lines) /\
  (forall r, r ∈ new_lines -> r ∈ elements c') /\
  NoDup (elements c') /\
  heights c' = heights c.
Proof.
  intros Hnd c'. subst c'.
  destruct (add_lines_elements new_lines c) as (added & Hel & Hadded & Hall & Hnda).
  split; [exists added; split; [exact Hel | intros r Hr; exact (proj1 (Hadded r Hr))]|].
  split; [intros r Hr; rewrite Hel; exact (Hall r Hr)|].
  split; [|exact (proj1 (add_lines_fields new_lines c))].
  rewrite Hel. apply list.NoDup_app. split; [exact Hnd|]. split; [|exact Hnda].
  intros r Hr Hr'. exact (proj2 (Hadded r Hr') Hr).
Qed.

Lemma add_lines_appends_once_witness :
  let c' := Lines.add_lines [1; 5; 1; 5; 7]%nat (mkLines [0; 1; 2]%nat [] [] []) in
  (exists added, elements c' = [0; 1; 2]%nat ++ added /\
                 forall r, r ∈ added -> r ∈ [1; 5; 1; 5; 7]%nat) /\
  (forall r, r ∈ [1; 5; 1; 5; 7]%nat -> r ∈ elements c') /\
  NoDup (elements c') /\
  heights c' = [].
Proof.
  apply (add_lines_appends_once [1; 5; 1; 5; 7]%nat (mkLines [0; 1; 2]%nat [] [] [])).
  simpl. apply (bool_decide_unpack _). vm_compute. exact I.
Defined.




(** ** Lines.__init__ and Lines.set_initial_elements: the deep copy *)

Lemma deepcopy_memo (l : list loc) :
  forall (h0 h : heap) (memo : gmap loc loc),
    memo_ok h0 h memo ->
    (forall r, r ∈ l -> is_Some (h0 !! r)) ->
    exists h' out memo',
      Lines.deepcopy h memo l = Some (h', out) /\
      memo_ok h0 h' memo' /\
      (forall r r', memo !! r = Some r' -> memo' !! r = Some r') /\
      Forall2 (fun r r' => memo' !! r = Some r') l out.
Proof.
  induction l as [|r l IH]; intros h0 h memo Hok Hlive; simpl.
  - exists h, [], memo. split; [reflexivity|]. split; [exact Hok|].
    split; [auto | constructor].
  - destruct (memo !! r) as [r'|] eqn:Hr.
    + destruct (IH h0 h memo Hok) as (h' & out & memo' & Hrun & Hok' & Hext & Hall).
      { intros r0 Hr0. apply Hlive. right. exact Hr0. }
      rewrite Hrun. simpl. exists h', (r' :: out), memo'.
      split; [reflexivity|]. split; [exact Hok'|]. split; [exact Hext|].
      constructor; [exact (Hext r r' Hr) | exact Hall].
    + destruct Hok as (Hsub & Hmemo & Hinj).
      destruct (Hlive r) as [o Ho]; [left|].
      rewrite (Hsub r o Ho). simpl.
      set (r' := fresh (dom h)).
      assert (Hfresh : h !! r' = None).
      { apply not_elem_of_dom. apply is_fresh. }
      assert (Hfresh0 : h0 !! r' = None).
      { destruct (h0 !! r') as [v|] eqn:Hv; [|reflexivity].
        rewrite (Hsub r' v Hv) in Hfresh. discriminate. }
      destruct (IH h0 (<[r' := o]> h) (<[r := r']> memo))
        as (h' & out & memo' & Hrun & Hok' & Hext & Hall).
      { split; [|split].
        - intros r0 v Hv. rewrite lookup_insert_ne; [exact (Hsub r0 v Hv)|].
          intros <-. rewrite Hv in Hfresh0. discriminate.
        - intros r1 r1' Hr1. destruct (decide (r = r1)) as [<-|Hne].
          + rewrite lookup_insert_eq in Hr1. injection Hr1 as <-.
            split; [exact Hfresh0|]. exists o. split; [exact Ho|].
            apply lookup_insert_eq.
          + rewrite lookup_insert_ne in Hr1 by exact Hne.
            destruct (Hmemo r1 r1' Hr1) as (Hn & o1 & Ho1 & Hc).
            split; [exact Hn|]. exists o1. split; [exact Ho1|].
            rewrite lookup_insert_ne; [exact Hc|].
            intros <-. rewrite Hc in Hfresh. discriminate.
        - intros r1 r2 r0 H1 H2.
          destruct (decide (r = r1)) as [<-|Hne1], (decide (r = r2)) as [<-|Hne2].
          + reflexivity.
          + rewrite lookup_insert_eq in H1. injection H1 as <-.
            rewrite lookup_insert_ne in H2 by exact Hne2.
            destruct (Hmemo r2 r' H2) as (_ & o2 & _ & Hc).
            rewrite Hc in Hfresh. discriminate.
          + rewrite lookup_insert_eq in H2. injection H2 as <-.
            rewrite lookup_insert_ne in H1 by exact Hne1.
            destruct (Hmemo r1 r' H1) as (_ & o1 & _ & Hc).
            rewrite Hc in Hfresh. discriminate.
          + rewrite lookup_insert_ne in H1 by exact Hne1.
            rewrite lookup_insert_ne in H2 by exact Hne2.
            exact (Hinj r1 r2 r0 H1 H2). }
      { intros r0 Hr0. apply Hlive. right. exact Hr0. }
      rewrite Hrun. simpl. exists h', (r' :: out), memo'.
      split; [reflexivity|]. split; [exact Hok'|]. split.
      * intros r1 r1' Hr1. apply Hext.
        rewrite lookup_insert_ne; [exact Hr1|]. intros <-. congruence.
      * constructor; [|exact Hall]. apply Hext. apply lookup_insert_eq.
Qed.

(** The copies of a list of live objects. *)
Lemma deepcopy_fresh (h : heap) (l : list loc) :
  (forall r, r ∈ l -> is_Some (h !! r)) ->
  exists h' out,
    Lines.deepcopy h ∅ l = Some (h', out) /\
    length out = length l /\
    (forall r v, h !! r = Some v -> h' !! r = Some v) /\
    (forall i r r', l !! i = Some r -> out !! i = Some r' ->
       h !! r' = None /\ h' !! r' = h !! r) /\
    (forall i j ri rj ri' rj',
       l !! i = Some ri -> l !! j = Some rj ->
       out !! i = Some ri' -> out !! j = Some rj' ->
       (ri = rj <-> ri' = rj')).
Proof.
  intros Hlive.
  destruct (deepcopy_memo l h h ∅) as (h' & out & memo' & Hrun & Hok & _ & Hall).
  { split; [auto|]. split; intros; rewrite lookup_empty in *; discriminate. }
  { exact Hlive. }
  destruct Hok as (Hsub & Hmemo & Hinj).
  exists h', out. split; [exact Hrun|].
  split; [symmetry; eapply Forall2_length; exact Hall|].
  split; [exact Hsub|]. split.
  - intros i r r' Hi Ho.
    pose proof (Forall2_lookup_lr _ _ _ _ _ _ Hall Hi Ho) as Hm. simpl in Hm.
    destruct (Hmemo r r' Hm) as (Hn & o & Hr & Hc).
    split; [exact Hn|]. rewrite Hc, Hr. reflexivity.
  - intros i j ri rj ri' rj' Hi Hj Hi' Hj'.
    pose proof (Forall2_lookup_lr _ _ _ _ _ _ Hall Hi Hi') as Hmi.
    pose proof (Forall2_lookup_lr _ _ _ _ _ _ Hall Hj Hj') as Hmj.
    split.
    + intros <-. rewrite Hmi in Hmj. inversion Hmj. reflexivity.
    + intros <-. exact (Hinj ri rj ri' Hmi Hmj).
Qed.

(** X7. [Lines(elements)] stores deep copies: for live objects the
    constructor returns, the collection has one element per listed line,
    each a fresh object that holds what the listed line holds; the objects
    of the caller are untouched; a line listed twice has one copy listed
    twice and different lines have different copies; the heights are
    empty. *)
Theorem init_copies (h : heap) (elems : list loc) :
  (forall r, r ∈ elems -> is_Some (h !! r)) ->
  exists h' c,
    Lines.init h elems = Some (h', c) /\
    heights c = [] /\
    length (elements c) = length elems /\
    (forall r v, h !! r = Some v -> h' !! r = Some v) /\
    (forall i r r', elems !! i = Some r -> elements c !! i = Some r' ->
       h !! r' = None /\ h' !! r' = h !! r) /\
    (forall i j ri rj ri' rj',
       elems !! i = Some ri -> elems !! j = Some rj ->
       elements c !! i = Some ri' -> elements c !! j = Some rj' ->
       (ri = rj <-> ri' = rj')).
Proof.
  intros Hlive.
  destruct (deepcopy_fresh h elems Hlive)
    as (h' & out & Hrun & Hlen & Hsub & Hcopy & Hshare).
  exists h', (mkLines out [] [] []). unfold Lines.init. rewrite Hrun. simpl.
  split; [reflexivity|]. split; [reflexivity|]. split; [exact Hlen|].
  split; [exact Hsub|]. split; [exact Hcopy | exact Hshare].
Qed.

Lemma init_copies_witness :
  exists h' c,
    Lines.init sample_heap [0; 3; 0]%nat = Some (h', c) /\
    heights c = [] /\
    length (elements c) = length [0; 3; 0]%nat /\
    (forall r v, sample_heap !! r = Some v -> h' !! r = Some v) /\
    (forall i r r', [0; 3; 0]%nat !! i = Some r -> elements c !! i = Some r' ->
       sample_heap !! r' = None /\ h' !! r' = sample_heap !! r) /\
    (forall i j ri rj ri' rj',
       [0; 3; 0]%nat !! i = Some ri -> [0; 3; 0]%nat !! j = Some rj ->
       elements c !! i = Some ri' -> elements c !! j = Some rj' ->
       (ri = rj <-> ri' = rj')).
Proof.
  apply (init_copies sample_heap [0; 3; 0]%nat).
  intros r Hr. apply list_elem_of_In in Hr. simpl in Hr.
  destruct Hr as [<- | [<- | [<- | []]]]; eexists; reflexivity.
Defined.

(** X8. [set_initial_elements] replaces the elements by deep copies of the
    listed lines and keeps the list of heights, which then still belongs
    to the elements of before. *)
Theorem set_initial_elements_keeps_heights (ele : list loc) (s : heap * Lines) :
  (forall r, r ∈ ele -> is_Some (s.1 !! r)) ->
  exists s',
    Lines.set_initial_elements ele s = (s', Some tt) /\
    heights s'.2 = heights s.2 /\
    length (elements s'.2) = length ele /\
    (forall r v, s.1 !! r = Some v -> s'.1 !! r = Some v) /\
    (forall i r r', ele !! i = Some r -> elements s'.2 !! i = Some r' ->
       s.1 !! r' = None /\ s'.1 !! r' = s.1 !! r).
Proof.
  intros Hlive.
  destruct (deepcopy_fresh s.1 ele Hlive)
    as (h' & out & Hrun & Hlen & Hsub & Hcopy & _).
  exists (h', set_elements out s.2). unfold Lines.set_initial_elements.
  rewrite Hrun. simpl.
  split; [reflexivity|]. split; [reflexivity|]. split; [exact Hlen|].
  split; [exact Hsub | exact Hcopy].
Qed.

Lemma set_initial_elements_keeps_heights_witness :
  exists s',
    Lines.set_initial_elements [3%nat]
      (sample_heap, mkLines [0; 1; 2]%nat [10; 10; 10]%float [] []) = (s', Some tt) /\
    heights s'.2 = [10; 10; 10]%float /\
    length (elements s'.2) = 1%nat /\
    (forall r v, sample_heap !! r = Some v -> s'.1 !! r = Some v) /\
    (forall i r r', [3%nat] !! i = Some r -> elements s'.2 !! i = Some r' ->
       sample_heap !! r' = None /\ s'.1 !! r' = sample_heap !! r).
Proof.
  apply (set_initial_elements_keeps_heights [3%nat]
           (sample_heap, mkLines [0; 1; 2]%nat [10; 10; 10]%float [] [])).
  intros r Hr. apply list_elem_of_In in Hr. simpl in Hr.
  destruct Hr as [<- | []]. eexists; reflexivity.
Defined.

(** ** Mapping: cells and flat indices *)

(** X9. On a grid of [m] rows and [n] columns, [coord_to_ind] is a
    one-to-one correspondence between the cells and the indices below
    [m * n]: the index of a cell is in range, two cells with the same index
    are the same cell, and every index in range is the index of a cell.
    The method does not check its argument: a column [n] places further is
    the same column of the next row. *)
Theorem coord_to_ind_bijective (self : Mapping) (g : Grid) (m n : Z) :
  grid self = Some g -> pixel_num_x g = m -> pixel_num_y g = n -> 0 <= n ->
  (forall r c, 0 <= r < m -> 0 <= c < n ->
     exists i, Mapping.coord_to_ind self (r, c) = Some i /\ 0 <= i < m * n) /\
  (forall r c r' c', 0 <= c < n -> 0 <= c' < n ->
     Mapping.coord_to_ind self (r, c) = Mapping.coord_to_ind self (r', c') ->
     r = r' /\ c = c') /\
  (forall i, 0 <= i < m * n ->
     0 <= i / n < m /\ 0 <= i mod n < n /\
     Mapping.coord_to_ind self (i / n, i mod n) = Some i) /\
  (forall r c, Mapping.coord_to_ind self (r, c + n)
               = Mapping.coord_to_ind self (r + 1, c)).
Proof.
  intros Hg Hm Hn Hpos. unfold Mapping.coord_to_ind. rewrite Hg. simpl. rewrite Hn.
  split; [|split; [|split]].
  - intros r c Hr Hc. exists (r * n + c). split; [reflexivity | nia].
  - intros r c r' c' Hc Hc' Heq. injection Heq as Heq.
    assert (r = r') by (destruct (Z.lt_trichotomy r r') as [Hlt|[Heq'|Hgt]]; [nia | exact Heq' | nia]).
    subst r'. split; [reflexivity | lia].
  - intros i Hi. assert (0 < n) by (destruct (Z.eq_dec n 0) as [->|]; lia).
    pose proof (Z.div_mod i n) as Hdm. pose proof (Z.mod_pos_bound i n) as Hb.
    split; [split; [apply Z.div_pos; lia | apply Z.div_lt_upper_bound; nia]|].
    split; [lia|]. f_equal. rewrite (Z.mul_comm (i / n) n). lia.
  - intros r c. f_equal. lia.
Qed.

Lemma coord_to_ind_bijective_witness :
  (forall r c, 0 <= r < 2 -> 0 <= c < 2 ->
     exists i, Mapping.coord_to_ind sample_map.2 (r, c) = Some i /\ 0 <= i < 2 * 2) /\
  (forall r c r' c', 0 <= c < 2 -> 0 <= c' < 2 ->
     Mapping.coord_to_ind sample_map.2 (r, c)
       = Mapping.coord_to_ind sample_map.2 (r', c') ->
     r = r' /\ c = c') /\
  (forall i, 0 <= i < 2 * 2 ->
     0 <= i / 2 < 2 /\ 0 <= i mod 2 < 2 /\
     Mapping.coord_to_ind sample_map.2 (i / 2, i mod 2) = Some i) /\
  (forall r c, Mapping.coord_to_ind sample_map.2 (r, c + 2)
               = Mapping.coord_to_ind sample_map.2 (r + 1, c)).
Proof.
  apply (coord_to_ind_bijective sample_map.2
           (mkGrid [0; 1]%float sample_cube 2 2 2) 2 2); try reflexivity.
  lia.
Defined.

(** ** Mapping.select_sum_by_list over every cell *)

Lemma seq_offset (a len : nat) :
  forall j, List.map (fun c => Z.of_nat a + Z.of_nat c) (seq j len)
            = List.map Z.of_nat (seq (a + j) len).
Proof.
  induction len as [|k IH]; intros j; simpl; [reflexivity|].
  f_equal; [lia|]. rewrite IH, Nat.add_succ_r. reflexivity.
Qed.

Lemma bind_singleton {A B} (f : A -> B) (l : list A) :
  (l ≫= fun c => [f c]) = List.map f l.
Proof. induction l as [|x l IH]; csimpl; [reflexivity|]. rewrite IH. reflexivity. Qed.

Lemma all_coords_index (rows cols : nat) :
  List.map (fun s : Z * Z => s.1 * Z.of_nat cols + s.2) (all_coords rows cols)
  = List.map Z.of_nat (seq 0 (rows * cols)).
Proof.
  unfold all_coords. induction rows as [|m IH].
  - reflexivity.
  - rewrite seq_S. simpl. rewrite bind_app, List.map_app, IH. simpl.
    rewrite app_nil_r, bind_singleton, List.map_map. simpl.
    replace (cols + m * cols)%nat with (m * cols + cols)%nat by lia.
    rewrite seq_app, List.map_app. f_equal. simpl.
    pose proof (seq_offset (m * cols) cols 0) as Hoff.
    rewrite Nat.add_0_r in Hoff. rewrite <- Hoff.
    apply List.map_ext. intros c. lia.
Qed.

Lemma mapM_map {A B C} (f : B -> option C) (g : A -> B) (l : list A) :
  mapM f (List.map g l) = mapM (fun x => f (g x)) l.
Proof.
  induction l as [|x l IH]; simpl; [reflexivity|]. rewrite IH. reflexivity.
Qed.

Lemma mapM_seq_lookup {A B} (f : A -> option B) (es : list A) :
  mapM (fun i => es !! i ≫= f) (seq 0 (length es)) = mapM f es.
Proof.
  induction es as [|e es IH]; simpl; [reflexivity|].
  rewrite <- seq_shift, mapM_map. simpl. rewrite IH. reflexivity.
Qed.

Lemma all_coords_first (rows cols : nat) :
  (0 < rows * cols)%nat -> all_coords rows cols !! 0%nat = Some (0, 0).
Proof.
  destruct rows as [|m]; [simpl; lia|]. destruct cols as [|k]; [lia|].
  intros _. reflexivity.
Qed.

Lemma all_coords_length (rows cols : nat) :
  length (all_coords rows cols) = (rows * cols)%nat.
Proof.
  rewrite <- (length_map (fun s : Z * Z => s.1 * Z.of_nat cols + s.2)).
  rewrite all_coords_index, length_map, length_seq. reflexivity.
Qed.

Lemma all_coords_lines (h : heap) (self : Mapping) (g : Grid) (m n : nat) :
  grid self = Some g -> pixel_num_y g = Z.of_nat n ->
  length (elements (as_Lines self)) = (m * n)%nat ->
  mapM (fun s => index ← Mapping.coord_to_ind self s;
                 Mapping.element_at h self index) (all_coords m n)
  = mapM (fun e => h !! e) (elements (as_Lines self)).
Proof.
  intros Hg Hn Hlen.
  rewrite <- (mapM_seq_lookup (fun e => h !! e) (elements (as_Lines self))).
  rewrite Hlen.
  transitivity (mapM (fun i => Mapping.element_at h self (Z.of_nat i))
                  (seq 0 (m * n))).
  - rewrite <- (mapM_map (Mapping.element_at h self) Z.of_nat (seq 0 (m * n))).
    rewrite <- all_coords_index, mapM_map.
    apply mapM_ext. intros s. unfold Mapping.coord_to_ind.
    rewrite Hg. simpl. rewrite Hn. reflexivity.
  - apply Forall_mapM_ext. apply List.Forall_forall. intros i Hi.
    apply in_seq in Hi. unfold Mapping.element_at.
    rewrite py_index_nat by lia. reflexivity.
Qed.

(** X10. On a Mapping whose grid has [m * n >= 1] cells and whose elements
    are as many, [select_sum_by_list] over all the cells, row by row,
    returns the x array of [select_sum_all] and its y array divided item by
    item by the number of cells: [select_sum_all] is that sum without the
    division, and both raise together. *)
Theorem select_sum_by_list_all_cells (h : heap) (self : Mapping) (g : Grid)
    (m n : nat) :
  grid self = Some g -> pixel_num_y g = Z.of_nat n ->
  (0 < m * n)%nat ->
  length (elements (as_Lines self)) = (m * n)%nat ->
  Mapping.select_sum_by_list h self (all_coords m n)
  = match Mapping.select_sum_all h self with
    | Some (x, y) =>
        Some (x, List.map (fun v => (v / float_of_nat (m * n))%float) y)
    | None => None
    end.
Proof.
  intros Hg Hn Hpos Hlen.
  assert (H0 : Mapping.coord_to_ind self (0, 0) = Some 0).
  { unfold Mapping.coord_to_ind. rewrite Hg. reflexivity. }
  unfold Mapping.select_sum_by_list, Mapping.select_sum_all.
  rewrite (all_coords_first m n Hpos). cbn [mbind option_bind].
  rewrite H0. cbn [mbind option_bind].
  destruct (Mapping.element_at h self 0) as [l0|]; cbn [mbind option_bind];
    [|reflexivity].
  rewrite (all_coords_lines h self g m n Hg Hn Hlen).
  destruct (mapM (fun e => h !! e) (elements (as_Lines self))) as [ls|];
    cbn [mbind option_bind]; [|reflexivity].
  destruct (Mapping.add_all _ ls) as [y|]; cbn [mbind option_bind]; [|reflexivity].
  rewrite all_coords_length. reflexivity.
Qed.

Lemma select_sum_by_list_all_cells_witness :
  Mapping.select_sum_by_list sample_map.1 sample_map.2 (all_coords 2 2)
  = match Mapping.select_sum_all sample_map.1 sample_map.2 with
    | Some (x, y) =>
        Some (x, List.map (fun v => (v / float_of_nat (2 * 2))%float) y)
    | None => None
    end.
Proof.
  apply (select_sum_by_list_all_cells sample_map.1 sample_map.2
           (mkGrid [0; 1]%float sample_cube 2 2 2) 2 2).
  - reflexivity.
  - reflexivity.
  - lia.
  - reflexivity.
Defined.

(** ** Loops that rewrite each listed object *)

Lemma update_loop {T} (upd : Line -> Line) (es : list loc) :
  forall s : heap * T,
    (forall e, e ∈ es -> is_Some (s.1 !! e)) ->
    exists h',
      for_each (fun (_ : unit) e => at_line e (fun l => (upd l, Some tt))) tt es s
        = ((h', s.2), Some tt) /\
      forall r : loc,
        h' !! r = Nat.iter (count_occ Nat.eq_dec es r) upd <$> s.1 !! r.
Proof.
  induction es as [|e es IH]; intros [h c] Hlive; cbn [fst snd] in *.
  - exists h. split; [reflexivity|].
    intros r. destruct (h !! r); reflexivity.
  - destruct (Hlive e) as [l Hl]; [left|].
    destruct (IH (<[e := upd l]> h, c)) as (h' & Hrun & Hfin);
      cbn [fst snd] in *.
    { intros e' He'. destruct (decide (e = e')) as [<-|Hne].
      - rewrite lookup_insert_eq. eexists; reflexivity.
      - rewrite lookup_insert_ne by exact Hne. apply Hlive. right. exact He'. }
    exists h'. split.
    + cbn [for_each]. unfold bind at 1. unfold at_line at 1.
      cbn [fst snd]. rewrite Hl. exact Hrun.
    + intros r. rewrite Hfin. cbn [count_occ].
      destruct (Nat.eq_dec e r) as [<-|Hne].
      * rewrite lookup_insert_eq, Hl. cbn [fmap option_fmap option_map].
        rewrite Nat.iter_succ_r. reflexivity.
      * rewrite lookup_insert_ne by exact Hne. reflexivity.
Qed.

(** Dividing the y values [k] times by the same number keeps the rest. *)
Lemma iter_divide (f : Line -> float) (k : nat) (l : Line) :
  (forall l0 d, f (set_data d l0) = f l0) ->
  let upd := fun l0 : Line =>
    set_data ((data l0).1, List.map (fun v => (v / f l0)%float) (data l0).2) l0 in
  Nat.iter k upd l
  = set_data ((data l).1,
              Nat.iter k (List.map (fun v => (v / f l)%float)) (data l).2) l.
Proof.
  intros Hf upd. induction k as [|k IH]; simpl.
  - destruct l as [[x y] nm hgt]. reflexivity.
  - rewrite IH. unfold upd. rewrite Hf. reflexivity.
Qed.

Lemma iter_map_length {A} (g : A -> A) (k : nat) (y : list A) :
  length (Nat.iter k (List.map g) y) = length y.
Proof. induction k as [|k IH]; simpl; [reflexivity|]. rewrite length_map. exact IH. Qed.

(** ** Lines.normalize *)

(** X11. [normalize] returns on every collection of live objects, keeps
    the collection, and leaves in each object its x array, name and height;
    the y array of an object has been divided by the object's height once
    for each time the object is listed in [elements] (an object that is not
    listed is unchanged). *)
Theorem normalize_divides_by_height (s : heap * Lines) :
  (forall e, e ∈ elements s.2 -> is_Some (s.1 !! e)) ->
  exists h',
    Lines.normalize s = ((h', s.2), Some tt) /\
    forall (r : loc) l, s.1 !! r = Some l ->
      h' !! r =
      Some (set_data
              ((data l).1,
               Nat.iter (count_occ Nat.eq_dec (elements s.2) r)
                 (List.map (fun v => (v / height l)%float)) (data l).2) l).
Proof.
  intros Hlive.
  destruct (update_loop
              (fun l => set_data ((data l).1,
                                  List.map (fun v => (v / height l)%float) (data l).2) l)
              (elements s.2) s Hlive) as (h' & Hrun & Hfin).
  exists h'. split.
  - unfold Lines.normalize. rewrite (bind_Some get_self _ s s s.2) by reflexivity.
    exact Hrun.
  - intros r l Hl. rewrite Hfin, Hl. simpl. f_equal.
    apply (iter_divide height). reflexivity.
Qed.

Lemma normalize_divides_by_height_witness :
  exists h',
    Lines.normalize (sample_heap, mkLines [0; 1; 0]%nat [] [] [])
      = ((h', mkLines [0; 1; 0]%nat [] [] []), Some tt) /\
    forall (r : loc) l, sample_heap !! r = Some l ->
      h' !! r =
      Some (set_data
              ((data l).1,
               Nat.iter (count_occ Nat.eq_dec [0; 1; 0]%nat r)
                 (List.map (fun v => (v / height l)%float)) (data l).2) l).
Proof.
  apply (normalize_divides_by_height (sample_heap, mkLines [0; 1; 0]%nat [] [] [])).
  intros e He. apply list_elem_of_In in He. simpl in He.
  destruct He as [<- | [<- | [<- | []]]]; eexists; reflexivity.
Defined.

Lemma div_zero_not_finite (v : float) : PrimFloat.is_finite (v / 0)%float = false.
Proof.
  unfold PrimFloat.is_finite, PrimFloat.is_nan, PrimFloat.is_infinity.
  rewrite !FloatAxioms.eqb_spec, FloatAxioms.abs_spec, FloatAxioms.div_spec.
  change (Prim2SF 0) with (S754_zero false).
  change (Prim2SF infinity) with (S754_infinity false).
  destruct (Prim2SF v) as [[]|[]| |[] m e]; reflexivity.
Qed.

(** X12. Before any alignment the height of a Line is 0, and [normalize]
    then divides by zero: every y value of every listed object comes out
    infinite or NaN, none finite. *)
Theorem normalize_unaligned (s : heap * Lines) :
  (forall e, e ∈ elements s.2 ->
     exists l, s.1 !! e = Some l /\ height l = 0%float) ->
  exists h',
    Lines.normalize s = ((h', s.2), Some tt) /\
    forall e, e ∈ elements s.2 ->
      exists l', h' !! e = Some l' /\
        Forall (fun v => PrimFloat.is_finite v = false) (data l').2.
Proof.
  intros Hzero.
  destruct (normalize_divides_by_height s) as (h' & Hrun & Hfin).
  { intros e He. destruct (Hzero e He) as (l & Hl & _). eexists; exact Hl. }
  exists h'. split; [exact Hrun|].
  intros e He. destruct (Hzero e He) as (l & Hl & Hh).
  rewrite (Hfin e l Hl). eexists. split; [reflexivity|]. simpl.
  assert (Hcount : (0 < count_occ Nat.eq_dec (elements s.2) e)%nat).
  { apply count_occ_In. apply list_elem_of_In. exact He. }
  destruct (count_occ Nat.eq_dec (elements s.2) e) as [|k]; [lia|].
  simpl. rewrite Hh. apply List.Forall_map. apply List.Forall_forall.
  intros v _. apply div_zero_not_finite.
Qed.

Lemma normalize_unaligned_witness :
  exists h',
    Lines.normalize (sample_heap, sample_lines) = ((h', sample_lines), Some tt) /\
    forall e, e ∈ elements sample_lines ->
      exists l', h' !! e = Some l' /\
        Forall (fun v => PrimFloat.is_finite v = false) (data l').2.
Proof.
  apply (normalize_unaligned (sample_heap, sample_lines)).
  intros e He. apply list_elem_of_In in He. simpl in He.
  destruct He as [<- | [<- | [<- | []]]]; eexists; split; reflexivity.
Defined.

(** ** Lines.initial_process and Lines.align on an empty collection *)

Lemma align_empty `{Numerics} (s : heap * Lines) :
  elements s.2 = [] -> Lines.align s = (s, None).
Proof.
  intros Hes. unfold Lines.align.
  rewrite (bind_Some get_self _ s s s.2) by reflexivity.
  rewrite Hes. reflexivity.
Qed.

(** X13. [initial_process(True)] never returns: after aligning and
    normalizing as [initial_process(False)] does, it calls the method
    [HWHM] that a Line does not have, so the call raises and the
    collection is left as [initial_process(False)] leaves it.  On a
    collection without elements neither call returns: [align] raises at
    the greatest of no minimum, and nothing is changed. *)
Theorem initial_process_display_raises `{Numerics} (s : heap * Lines) :
  (Lines.initial_process true s).2 = None /\
  (Lines.initial_process true s).1 = (Lines.initial_process false s).1 /\
  (elements s.2 = [] ->
   forall display, Lines.initial_process display s = (s, None)).
Proof.
  split; [|split].
  - unfold Lines.initial_process, bind.
    destruct (Lines.align s) as [s1 [[]|]]; [|reflexivity].
    destruct (Lines.normalize s1) as [s2 [[]|]]; reflexivity.
  - unfold Lines.initial_process, bind.
    destruct (Lines.align s) as [s1 [[]|]]; [|reflexivity].
    destruct (Lines.normalize s1) as [s2 [[]|]]; reflexivity.
  - intros Hes display. unfold Lines.initial_process.
    apply bind_None. apply align_empty. exact Hes.
Qed.

Lemma initial_process_display_raises_witness :
  Lines.initial_process (H := sample_numerics) false (sample_heap, empty_lines)
  = ((sample_heap, empty_lines), None).
Proof.
  apply (proj2 (proj2 (initial_process_display_raises (H := sample_numerics)
                         (sample_heap, empty_lines)))).
  reflexivity.
Defined.

(** ** Slicing twice *)

Lemma filter_idem {A} (f : A -> bool) (l : list A) :
  List.filter f (List.filter f l) = List.filter f l.
Proof.
  induction l as [|x l IH]; simpl; [reflexivity|].
  destruct (f x) eqn:Hx; simpl; rewrite ?Hx, IH; reflexivity.
Qed.

Lemma select_y_filtered (keep : float -> bool) (xs ys d2 : list float) :
  Line.select_y keep xs ys = Some d2 ->
  Line.select_y keep (List.filter keep xs) d2 = Some d2.
Proof.
  revert ys d2. induction xs as [|x xs IH]; intros ys d2; simpl.
  - intros [= <-]. reflexivity.
  - destruct (keep x) eqn:Hx.
    + destruct ys as [|y ys]; [intros [=]|].
      destruct (Line.select_y keep xs ys) as [d|] eqn:Hd; simpl; [|intros [=]].
      intros [= <-]. simpl. rewrite Hx, (IH ys d Hd). reflexivity.
    + apply IH.
Qed.

(** X14. [slice_data] is idempotent: slicing the stored slice to the same
    range returns it unchanged. *)
Theorem slice_data_idempotent (self : Line) (xrange : list float)
    (d : list float * list float) :
  Line.slice_data self xrange = Some d ->
  Line.slice_data (set_data d self) xrange = Some d.
Proof.
  unfold Line.slice_data. simpl.
  destruct (data self).1 as [|x xs] eqn:Hx.
  - intros [= <-]. reflexivity.
  - remember (x :: xs) as X eqn:HX. clear HX.
    destruct (pymin xrange) as [lo|]; cbn [mbind option_bind]; [|intros [=]].
    destruct (pymax xrange) as [hi|]; cbn [mbind option_bind]; [|intros [=]].
    destruct (Line.select_y _ X _) as [d2|] eqn:Hd2; cbn [mbind option_bind];
      [|intros [=]].
    intros Heq. inversion Heq; subst d; clear Heq. cbn [fst snd].
    pose proof (select_y_length _ _ _ _ Hd2) as Hlen.
    destruct (List.filter (Line.in_range lo hi) X) as [|v F] eqn:HF.
    + destruct d2; [reflexivity | discriminate Hlen].
    + rewrite <- HF. rewrite (select_y_filtered _ _ _ _ Hd2).
      cbn [mbind option_bind]. rewrite filter_idem. reflexivity.
Qed.

Lemma slice_data_idempotent_witness :
  Line.slice_data
    (set_data ([-1; -0.5; 0; 0.5; 1]%float, [2; 6; 10; 6; 2]%float) sample_line)
    [-1; 1]%float
  = Some ([-1; -0.5; 0; 0.5; 1]%float, [2; 6; 10; 6; 2]%float).
Proof.
  apply (slice_data_idempotent sample_line [-1; 1]%float).
  vm_compute. reflexivity.
Defined.

(** ** Lines.slice_data *)

Lemma slice_loop (xrange : list float) (lo hi : float) (es : list loc) :
  pymin xrange = Some lo -> pymax xrange = Some hi ->
  forall s : heap * Lines,
    (forall e, e ∈ es ->
       exists l, s.1 !! e = Some l /\
                 (length (data l).1 <= length (data l).2)%nat) ->
    exists h',
      for_each (Lines.reslice_step xrange) tt es s = ((h', s.2), Some tt) /\
      (forall (r : loc) l, s.1 !! r = Some l -> r ∈ es ->
         exists d, Line.slice_data l xrange = Some d /\
                   h' !! r = Some (set_data d l)) /\
      (forall r : loc, r ∉ es -> h' !! r = s.1 !! r).
Proof.
  intros Hlo Hhi. induction es as [|e es IH]; intros [h c] Hlive;
    cbn [fst snd] in *.
  - exists h. split; [reflexivity|]. split; [|auto].
    intros r l Hl Hr. inversion Hr.
  - destruct (Hlive e) as (l & Hl & Hlen); [left|].
    destruct (slice_data_total l xrange lo hi Hlo Hhi Hlen) as [d Hd].
    pose proof (slice_data_lengths l xrange d Hd) as [Hdlen _].
    destruct (IH (<[e := set_data d l]> h, c)) as (h' & Hrun & Hin & Hout);
      cbn [fst snd] in *.
    { intros e' He'. destruct (decide (e = e')) as [<-|Hne].
      - rewrite lookup_insert_eq. eexists. split; [reflexivity|]. simpl. lia.
      - rewrite lookup_insert_ne by exact Hne. apply Hlive. right. exact He'. }
    exists h'. split; [|split].
    + cbn [for_each]. unfold bind at 1. unfold Lines.reslice_step at 1.
      unfold at_line at 1. cbn [fst snd]. rewrite Hl, Hd. exact Hrun.
    + intros r l0 Hl0 Hr. destruct (decide (e = r)) as [<-|Hne].
      * rewrite Hl in Hl0. injection Hl0 as <-.
        exists d. split; [exact Hd|].
        destruct (decide (e ∈ es)) as [He|He].
        -- destruct (Hin e (set_data d l) (lookup_insert_eq _ _ _) He)
             as (d' & Hd' & Hh').
           rewrite (slice_data_idempotent l xrange d Hd) in Hd'.
           injection Hd' as <-. rewrite Hh'. reflexivity.
        -- rewrite (Hout e He). apply lookup_insert_eq.
      * apply elem_of_cons in Hr as [-> | Hr]; [congruence|].
        apply Hin; [|exact Hr]. rewrite lookup_insert_ne by exact Hne. exact Hl0.
    + intros r Hr. apply not_elem_of_cons in Hr as [Hne Hr].
      rewrite (Hout r Hr). apply lookup_insert_ne. congruence.
Qed.

(** X15. On a collection whose elements share their x array and have at
    least as many y values as x values, [Lines.slice_data] with a
    non-empty range returns, and every element then holds the samples of
    the shared x array within [[min(xrange), max(xrange)]] and as many y
    values; objects that are not elements are unchanged. *)
Theorem lines_slice_data_common_grid (xrange : list float) (lo hi : float)
    (x0 : list float) (s : heap * Lines) :
  pymin xrange = Some lo -> pymax xrange = Some hi ->
  (forall e, e ∈ elements s.2 ->
     exists l, s.1 !! e = Some l /\ (data l).1 = x0 /\
               (length (data l).1 <= length (data l).2)%nat) ->
  exists h',
    Lines.slice_data xrange s = ((h', s.2), Some tt) /\
    (forall e, e ∈ elements s.2 ->
       exists l', h' !! e = Some l' /\
         (data l').1 = List.filter (Line.in_range lo hi) x0 /\
         length (data l').2 = length (data l').1) /\
    (forall (r : loc), r ∉ elements s.2 -> h' !! r = s.1 !! r).
Proof.
  intros Hlo Hhi Hshared.
  destruct (slice_loop xrange lo hi (elements s.2) Hlo Hhi s)
    as (h' & Hrun & Hin & Hout).
  { intros e He. destruct (Hshared e He) as (l & Hl & _ & Hlen).
    exists l. split; assumption. }
  exists h'. split; [|split].
  - unfold Lines.slice_data.
    rewrite (bind_Some get_self _ s s s.2) by reflexivity. exact Hrun.
  - intros e He. destruct (Hshared e He) as (l & Hl & Hx & _).
    destruct (Hin e l Hl He) as (d & Hd & Hh').
    exists (set_data d l). split; [exact Hh'|]. simpl. split.
    + rewrite (slice_data_x l xrange lo hi d Hlo Hhi Hd), Hx. reflexivity.
    + exact (proj1 (slice_data_lengths l xrange d Hd)).
  - exact Hout.
Qed.

Lemma lines_slice_data_common_grid_witness :
  exists h',
    Lines.slice_data [-1; 1]%float (sample_heap, sample_lines)
      = ((h', sample_lines), Some tt) /\
    (forall e, e ∈ elements sample_lines ->
       exists l', h' !! e = Some l' /\
         (data l').1 = List.filter (Line.in_range (-1) 1) sample_x /\
         length (data l').2 = length (data l').1) /\
    (forall (r : loc), r ∉ elements sample_lines -> h' !! r = sample_heap !! r).
Proof.
  apply (lines_slice_data_common_grid [-1; 1]%float (-1)%float 1%float sample_x
           (sample_heap, sample_lines) eq_refl eq_refl).
  intros e He. apply list_elem_of_In in He. simpl in He.
  destruct He as [<- | [<- | [<- | []]]]; eexists;
    (split; [reflexivity|]); (split; [reflexivity|]); simpl; lia.
Defined.

(** ** Lines.denoise_LLR *)

Lemma denoise_step_run `{Numerics} (acc : list Line) (e : loc)
    (s : heap * Lines) :
  Lines.denoise_step acc e s
  = (s, l ← s.1 !! e;
        d ← Line.denoise_LLR l 0.02%float 1;
        Some (acc ++ [set_data d l])).
Proof.
  destruct s as [h c].
  unfold Lines.denoise_step, bind, read_line, at_line, get, try_pure, ret.
  cbn [fst snd]. destruct (h !! e) as [l|] eqn:Hl; [|reflexivity].
  rewrite (insert_id h e l Hl). cbn [mbind option_bind].
  destruct (Line.denoise_LLR l 0.02%float 1); reflexivity.
Qed.

Lemma denoise_loop `{Numerics} (es : list loc) :
  forall (s : heap * Lines) (acc : list Line),
    (for_each Lines.denoise_step acc es s).1 = s /\
    forall out, (for_each Lines.denoise_step acc es s).2 = Some out ->
      exists new,
        out = acc ++ new /\
        Forall2 (fun e nl => exists l d,
                   s.1 !! e = Some l /\
                   Line.denoise_LLR l 0.02%float 1 = Some d /\
                   nl = set_data d l) es new.
Proof.
  induction es as [|e es IH]; intros s acc.
  - split; [reflexivity|]. simpl. intros out [= <-].
    exists []. rewrite app_nil_r. split; [reflexivity | constructor].
  - assert (Hstep : for_each Lines.denoise_step acc (e :: es) s
                    = match l ← s.1 !! e;
                            d ← Line.denoise_LLR l 0.02%float 1;
                            Some (acc ++ [set_data d l]) with
                      | Some acc' => for_each Lines.denoise_step acc' es s
                      | None => (s, None)
                      end).
    { cbn [for_each]. unfold bind at 1. rewrite denoise_step_run.
      destruct (_ ≫= _); reflexivity. }
    rewrite Hstep. clear Hstep.
    destruct (s.1 !! e) as [l|] eqn:Hl; cbn [mbind option_bind];
      [|split; [reflexivity | intros out [=]]].
    destruct (Line.denoise_LLR l 0.02%float 1) as [d|] eqn:Hd;
      cbn [mbind option_bind]; [|split; [reflexivity | intros out [=]]].
    destruct (IH s (acc ++ [set_data d l])) as [Hst Hout].
    split; [exact Hst|].
    intros out Hrun. destruct (Hout out Hrun) as (new & -> & Hall).
    exists (set_data d l :: new). split; [rewrite <- app_assoc; reflexivity|].
    constructor; [|exact Hall]. exists l, d. repeat split; assumption.
Qed.

(** X16. [Lines.denoise_LLR] never changes the collection or its objects,
    whether it returns or raises; when it returns, the list it returns has
    one new Line per element, in order: the element's name and height with
    the data that [Line.denoise_LLR] returns for the element. *)
Theorem lines_denoise_LLR_copies `{Numerics} (s : heap * Lines) :
  (Lines.denoise_LLR s).1 = s /\
  forall out, (Lines.denoise_LLR s).2 = Some out ->
    Forall2 (fun e nl => exists l d,
               s.1 !! e = Some l /\
               Line.denoise_LLR l 0.02%float 1 = Some d /\
               data nl = d /\ name nl = name l /\ height nl = height l)
            (elements s.2) out.
Proof.
  unfold Lines.denoise_LLR.
  rewrite (bind_Some get_self _ s s s.2) by reflexivity.
  destruct (denoise_loop (elements s.2) s []) as [Hst Hout].
  split; [exact Hst|].
  intros out Hrun. destruct (Hout out Hrun) as (new & -> & Hall). simpl.
  revert Hall. apply Forall2_impl.
  intros e nl (l & d & Hl & Hd & ->). exists l, d. repeat split; assumption.
Qed.

Lemma lines_denoise_LLR_copies_witness :
  exists out,
    (Lines.denoise_LLR (H := sample_numerics) (sample_heap, sample_lines)).2
    = Some out /\
    Forall2 (fun e nl => exists l d,
               sample_heap !! e = Some l /\
               Line.denoise_LLR (H := sample_numerics) l 0.02%float 1 = Some d /\
               data nl = d /\ name nl = name l /\ height nl = height l)
            (elements sample_lines) out.
Proof.
  eexists. split; [vm_compute; reflexivity|].
  apply (proj2 (lines_denoise_LLR_copies (H := sample_numerics)
                  (sample_heap, sample_lines))).
  vm_compute. reflexivity.
Defined.

(** ** Line.find_peak on a range with too few samples *)

(** X17. When fewer than two samples of a Spectrum lie in [xrange],
    [find_peak] raises, and the Spectrum is left with the slice only: the
    data outside the range is lost although no peak was returned. *)
Theorem find_peak_too_few_samples `{Numerics} (self : Line)
    (xrange : list float) (cfg : gmap string pyval)
    (d : list float * list float) :
  Line.slice_data self xrange = Some d ->
  (length d.1 < 2)%nat ->
  Line.find_peak xrange cfg self = (set_data d self, None).
Proof.
  intros Hd Hlen. unfold Line.find_peak.
  rewrite (bind_Some get _ self self self) by reflexivity.
  rewrite (bind_Some (try_pure (Line.slice_data self xrange)) _ self self d)
    by (rewrite Hd; reflexivity).
  rewrite (bind_Some (put _) _ self (set_data d self) tt) by reflexivity.
  apply bind_None. unfold try_pure. f_equal.
  unfold Line.denoise_LLR, Line.block_size. simpl.
  destruct d.1 as [|x0 [|x1 xs]]; simpl in *; [reflexivity | reflexivity | lia].
Qed.

Lemma find_peak_too_few_samples_witness :
  Line.find_peak (H := sample_numerics) [-0.25; 0.25]%float ∅ sample_line
  = (set_data ([0]%float, [10]%float) sample_line, None).
Proof.
  apply (find_peak_too_few_samples (H := sample_numerics) sample_line
           [-0.25; 0.25]%float ∅ ([0]%float, [10]%float)).
  - vm_compute. reflexivity.
  - simpl. lia.
Defined.

(** ** Mapping.normalize_map *)

(** X18. With a list of heights whose greatest is [mx], [normalize_map]
    returns on live objects, keeps the Mapping, and has divided the y array
    of each object by [mx] once for each time the object is listed; x
    arrays, names and heights are kept. *)
Theorem normalize_map_divides (s : heap * Mapping) (mx : float) :
  pymax (heights (as_Lines s.2)) = Some mx ->
  (forall e, e ∈ elements (as_Lines s.2) -> is_Some (s.1 !! e)) ->
  exists h',
    Mapping.normalize_map s = ((h', s.2), Some tt) /\
    forall (r : loc) l, s.1 !! r = Some l ->
      h' !! r =
      Some (set_data
              ((data l).1,
               Nat.iter (count_occ Nat.eq_dec (elements (as_Lines s.2)) r)
                 (List.map (fun v => (v / mx)%float)) (data l).2) l).
Proof.
  intros Hmx Hlive.
  destruct (update_loop
              (fun l => set_data ((data l).1,
                                  List.map (fun v => (v / mx)%float) (data l).2) l)
              (elements (as_Lines s.2)) s Hlive) as (h' & Hrun & Hfin).
  exists h'. split.
  - unfold Mapping.normalize_map.
    rewrite (bind_Some get_self _ s s s.2) by reflexivity.
    destruct (heights (as_Lines s.2)) as [|v hs] eqn:Hh; [discriminate Hmx|].
    rewrite (bind_Some (try_pure (pymax (v :: hs))) _ s s mx)
      by (unfold try_pure; rewrite Hmx; reflexivity).
    exact Hrun.
  - intros r l Hl. rewrite Hfin, Hl. simpl. f_equal.
    apply (iter_divide (fun _ => mx)). reflexivity.
Qed.

Lemma normalize_map_divides_witness :
  exists h',
    Mapping.normalize_map sample_map_heights
    = ((h', sample_map_heights.2), Some tt) /\
    forall (r : loc) l, sample_map_heights.1 !! r = Some l ->
      h' !! r =
      Some (set_data
              ((data l).1,
               Nat.iter (count_occ Nat.eq_dec
                           (elements (as_Lines sample_map_heights.2)) r)
                 (List.map (fun v => (v / 4)%float)) (data l).2) l).
Proof.
  apply (normalize_map_divides sample_map_heights 4%float).
  - vm_compute. reflexivity.
  - intros e He. apply list_elem_of_In in He. vm_compute in He.
    destruct He as [<-|[<-|[<-|[<-|[]]]]]; vm_compute; eexists; reflexivity.
Defined.

(** ** Mapping.set_initial_by_data: the objects it creates *)

Lemma alloc_all_fresh (ls : list Line) :
  forall (h h' : heap) (rs : list loc),
    Mapping.alloc_all h ls = (h', rs) ->
    NoDup rs /\ (forall r : loc, r ∈ rs -> h !! r = None).
Proof.
  induction ls as [|l ls IH]; intros h h' rs; simpl.
  - intros [= <- <-]. split; [constructor|]. intros r Hr. inversion Hr.
  - destruct (Mapping.alloc_all (<[fresh (dom h) := l]> h) ls) as [h1 rs1] eqn:Hrec.
    intros [= <- <-].
    destruct (IH _ _ _ Hrec) as (Hnd & Hnew).
    assert (Hfresh : h !! fresh (dom h) = None).
    { apply not_elem_of_dom. apply is_fresh. }
    split.
    + constructor; [|exact Hnd]. intros Hin. apply Hnew in Hin.
      rewrite lookup_insert_eq in Hin. discriminate.
    + intros r Hr. apply elem_of_cons in Hr as [-> | Hr]; [exact Hfresh|].
      apply Hnew in Hr. destruct (decide (r = fresh (dom h))) as [-> | Hne].
      * exact Hfresh.
      * rewrite lookup_insert_ne in Hr by congruence. exact Hr.
Qed.

(** X19. On a cube of [m * n >= 1] pixels [set_initial_by_data] returns and
    lists [m * n] objects that are pairwise distinct and all new: none of
    them was live before, and every object that was live is kept as it
    was.  The list of heights of an earlier alignment is kept as well. *)
Theorem set_initial_by_data_fresh (xd : list float) (yd : ndarray)
    (m n k : nat) (s : heap * Mapping) :
  shape yd = [m; n; k] -> length (items yd) = (m * n * k)%nat ->
  (0 < m * n)%nat ->
  let run := Mapping.set_initial_by_data xd yd s in
  run.2 = Some tt /\
  length (elements (as_Lines run.1.2)) = (m * n)%nat /\
  NoDup (elements (as_Lines run.1.2)) /\
  (forall e : loc, e ∈ elements (as_Lines run.1.2) -> s.1 !! e = None) /\
  (forall (r : loc) l, s.1 !! r = Some l -> run.1.1 !! r = Some l) /\
  heights (as_Lines run.1.2) = heights (as_Lines s.2).
Proof.
  intros Hshape Hsize Hpos run. subst run.
  unfold Mapping.set_initial_by_data. rewrite Hshape.
  unfold bind, get_self, put_self, try_pure. simpl.
  rewrite (np_reshape_rows_exact yd (m * n) k) by (simpl; lia).
  destruct (Mapping.alloc_all s.1 _) as [h' es] eqn:Halloc. simpl.
  pose proof (alloc_all_fresh _ _ _ _ Halloc) as (Hnd & Hnew).
  apply alloc_all_spec in Halloc as (Hlen & Hkeep & _).
  rewrite length_map, length_map, length_seq in Hlen.
  repeat split; auto.
Qed.

Lemma set_initial_by_data_fresh_witness :
  let run := Mapping.set_initial_by_data [0; 1]%float sample_cube
               (sample_heap, mkMapping sample_lines None) in
  run.2 = Some tt /\
  length (elements (as_Lines run.1.2)) = (2 * 2)%nat /\
  NoDup (elements (as_Lines run.1.2)) /\
  (forall e : loc, e ∈ elements (as_Lines run.1.2) -> sample_heap !! e = None) /\
  (forall (r : loc) l, sample_heap !! r = Some l -> run.1.1 !! r = Some l) /\
  heights (as_Lines run.1.2) = [].
Proof.
  apply (set_initial_by_data_fresh [0; 1]%float sample_cube 2 2 2
           (sample_heap, mkMapping sample_lines None)).
  - reflexivity.
  - reflexivity.
  - lia.
Defined.

(** X20. A cube without pixels ([m * n = 0]) makes [set_initial_by_data]
    raise at the reshape, after the attributes of the grid have been
    replaced: the elements and the objects are kept, the grid is the new
    one. *)
Theorem set_initial_by_data_no_pixel (xd : list float) (yd : ndarray)
    (m n k : nat) (s : heap * Mapping) :
  shape yd = [m; n; k] -> (m * n = 0)%nat ->
  Mapping.set_initial_by_data xd yd s
  = ((s.1, mkMapping (as_Lines s.2)
             (Some (mkGrid xd yd (Z.of_nat m) (Z.of_nat n) (Z.of_nat k)))),
     None).
Proof.
  intros Hshape Hzero. unfold Mapping.set_initial_by_data. rewrite Hshape.
  unfold bind, get_self, put_self, try_pure, np_reshape_rows.
  cbn [fst snd]. rewrite Hzero. reflexivity.
Qed.

Lemma set_initial_by_data_no_pixel_witness :
  Mapping.set_initial_by_data [0; 1]%float (mkArray [0; 3; 2]%nat []) sample_map
  = ((sample_map.1,
      mkMapping (as_Lines sample_map.2)
        (Some (mkGrid [0; 1]%float (mkArray [0; 3; 2]%nat []) 0 3 2))),
     None).
Proof.
  apply (set_initial_by_data_no_pixel [0; 1]%float (mkArray [0; 3; 2]%nat [])
           0 3 2 sample_map).
  - reflexivity.
  - reflexivity.
Defined.

(** ** Line.find_zlp_max: the height and the shift *)







(** ** Line.get_linspace *)

(** X22. Without a step, [get_linspace] on a non-empty range with a count
    [num >= 2] returns [num] points, the last of which is exactly
    [max(xrange)]. *)
Theorem get_linspace_count (xrange : list float) (num : Z) (step lo hi : float) :
  (0 <? step)%float = false ->
  pymin xrange = Some lo -> pymax xrange = Some hi ->
  2 <= num ->
  exists g,
    Line.get_linspace xrange num step = Some g /\
    Z.of_nat (length g) = num /\
    list.last g = Some hi.
Proof.
  intros Hstep Hlo Hhi Hnum. unfold Line.get_linspace. rewrite Hstep.
  destruct (Z.ltb_spec 0 num) as [_|]; [|lia].
  rewrite Hlo, Hhi. cbn [mbind option_bind]. unfold np_linspace.
  destruct (Z.ltb_spec num 0) as [|_]; [lia|].
  destruct (Z.ltb_spec 1 num) as [_|]; [|lia].
  eexists. split; [reflexivity|]. split.
  - rewrite length_app, removelast_firstn_len, length_take, length_map.
    destruct (0 <? num - 1); [destruct (_ =? 0)%float|];
      rewrite !length_map; unfold py_range; rewrite length_seq; simpl; lia.
  - apply last_snoc.
Qed.

Lemma get_linspace_count_witness :
  exists g,
    Line.get_linspace [2; -1; 0.5]%float 5 0%float = Some g /\
    Z.of_nat (length g) = 5 /\
    list.last g = Some 2%float.
Proof.
  apply (get_linspace_count [2; -1; 0.5]%float 5 0%float (-1)%float 2%float).
  - reflexivity.
  - reflexivity.
  - reflexivity.
  - lia.
Defined.
